(** * The column-chunk writer of pixels-core: [lib/writer/ColumnWriter.cpp]

    A shallow embedding of [ColumnWriter] (the pixel / chunk lifecycle shared
    by every typed column writer) together with the properties of its index,
    alignment and null-bitmap bookkeeping.

    The C++ object is a record of fields that the member functions mutate; a
    member function is embedded as a function from the state before the call
    to the state after it, one [let] per source statement.  The collaborators
    whose code lives in other files ([ByteBuffer], [StatsRecorder],
    [BitUtils], the protobuf messages) are either small models or interfaces,
    each introduced where it is declared below. *)

From Stdlib Require Import ZArith List Bool Lia Sorted.
From stdpp Require Import base list.
Import ListNotations.
Local Open Scope Z_scope.

(* ===================================================================== *)
(** ** Machine integers *)
(* ===================================================================== *)

(** [int] is a 32-bit two's complement integer; [uint8_t] values are kept
    as [Z] in [0, 256). *)
Definition INT_MAX : Z := 2 ^ 31 - 1.
Definition INT_MIN : Z := - 2 ^ 31.

(** [static_cast<int>(x)]: the value of [x] modulo 2^32, read as signed. *)
Definition static_cast_int (x : Z) : Z := (x + 2 ^ 31) mod 2 ^ 32 - 2 ^ 31.

Definition int_add (a b : Z) : Z := static_cast_int (a + b).
Definition int_sub (a b : Z) : Z := static_cast_int (a - b).
(** [a % b] on [int]: the remainder of the division truncated towards zero. *)
Definition int_rem (a b : Z) : Z := Z.rem a b.

Inductive ByteOrder : Type :=
  | PIXELS_BIG_ENDIAN
  | PIXELS_LITTLE_ENDIAN.

Definition ByteOrder_eqb (a b : ByteOrder) : bool :=
  match a, b with
  | PIXELS_BIG_ENDIAN, PIXELS_BIG_ENDIAN => true
  | PIXELS_LITTLE_ENDIAN, PIXELS_LITTLE_ENDIAN => true
  | _, _ => false
  end.

(* ===================================================================== *)
(** ** ByteBuffer *)
(* ===================================================================== *)

Module ByteBuffer.

(** Modelled from the spec: the growable byte buffer behind [outputStream]
    and [isNullStream]; its class is not among the sources.  The spec gives
    it a byte store with independent read and write cursors, a raw append
    at the write cursor, a view between the cursors, a cursor reset that
    keeps the storage and a release of the storage. *)
Record t : Type := mk {
  buf : list Z;
  rpos : nat;
  wpos : nat
}.

Definition empty : t := mk [] 0 0.

(** Modelled from the spec: the cursor getters and the pointer to the
    storage. *)
Definition getPointer (b : t) : list Z := buf b.
Definition getReadPos (b : t) : nat := rpos b.
Definition getWritePos (b : t) : nat := wpos b.

(** Modelled from the spec: [putBytes(src, len)], the raw append.  The first
    [len] bytes of [src] are stored at the write cursor, over whatever the
    storage held there, and the cursor moves past them.  (Asking for more
    bytes than [src] holds reads out of bounds in C++; the model stops at
    the end of [src].) *)
Definition putBytes (b : t) (src : list Z) (len : nat) : t :=
  let data := take len src in
  mk (take (wpos b) (buf b) ++ data ++ drop (wpos b + length data) (buf b))
     (rpos b)
     (wpos b + length data).

(** Modelled from the spec: [resetPosition()].  Both cursors go back to the
    start; the bytes are logically discarded and the storage stays. *)
Definition resetPosition (b : t) : t := mk (buf b) 0 0.

(** Modelled from the spec: [clear()] releases the storage. *)
Definition clear (b : t) : t := mk [] 0 0.

(** The bytes between the read cursor and the write cursor. *)
Definition view (b : t) : list Z := take (wpos b - rpos b) (drop (rpos b) (buf b)).

(** The cursors of a buffer that was only ever appended to and reset. *)
Definition wf (b : t) : Prop := (rpos b <= wpos b <= length (buf b))%nat.

End ByteBuffer.

(* ===================================================================== *)
(** ** The protobuf records *)
(* ===================================================================== *)

(** Modelled from the spec: the messages of [pixels.proto] (not among the
    sources) with the fields the spec lists for them, as plain records.  A
    field that was never set reads as its default (zero, false, the empty
    sequence). *)

Record PixelStatistic (S : Type) : Type := mkPixelStatistic {
  statistic : S
}.
Arguments mkPixelStatistic {S} _.
Arguments statistic {S} _.

Record ColumnChunkIndex (S : Type) : Type := mkColumnChunkIndex {
  isnulloffset : Z;
  pixelpositions : list Z;
  pixelstatistics : list (PixelStatistic S);
  littleendian : bool;
  nullspadding : bool;
  isnullalignment : Z
}.
Arguments mkColumnChunkIndex {S} _ _ _ _ _ _.
Arguments isnulloffset {S} _.
Arguments pixelpositions {S} _.
Arguments pixelstatistics {S} _.
Arguments littleendian {S} _.
Arguments nullspadding {S} _.
Arguments isnullalignment {S} _.

Definition ColumnChunkIndex_default {S : Type} : ColumnChunkIndex S :=
  mkColumnChunkIndex 0 [] [] false false 0.

(** [Clear()] of a protobuf message puts every field back to its default. *)
Definition Clear {S : Type} (i : ColumnChunkIndex S) : ColumnChunkIndex S :=
  ColumnChunkIndex_default.

Definition set_isnulloffset {S} (v : Z) (i : ColumnChunkIndex S) :=
  mkColumnChunkIndex v (pixelpositions i) (pixelstatistics i)
                     (littleendian i) (nullspadding i) (isnullalignment i).

Definition add_pixelpositions {S} (v : Z) (i : ColumnChunkIndex S) :=
  mkColumnChunkIndex (isnulloffset i) (pixelpositions i ++ [v]) (pixelstatistics i)
                     (littleendian i) (nullspadding i) (isnullalignment i).

Definition add_pixelstatistics {S} (v : PixelStatistic S) (i : ColumnChunkIndex S) :=
  mkColumnChunkIndex (isnulloffset i) (pixelpositions i) (pixelstatistics i ++ [v])
                     (littleendian i) (nullspadding i) (isnullalignment i).

Definition set_littleendian {S} (v : bool) (i : ColumnChunkIndex S) :=
  mkColumnChunkIndex (isnulloffset i) (pixelpositions i) (pixelstatistics i)
                     v (nullspadding i) (isnullalignment i).

Definition set_nullspadding {S} (v : bool) (i : ColumnChunkIndex S) :=
  mkColumnChunkIndex (isnulloffset i) (pixelpositions i) (pixelstatistics i)
                     (littleendian i) v (isnullalignment i).

Definition set_isnullalignment {S} (v : Z) (i : ColumnChunkIndex S) :=
  mkColumnChunkIndex (isnulloffset i) (pixelpositions i) (pixelstatistics i)
                     (littleendian i) (nullspadding i) v.

Inductive ColumnEncoding_Kind : Type :=
  | ColumnEncoding_Kind_NONE
  | ColumnEncoding_Kind_OTHER.

Record ColumnEncoding : Type := mkColumnEncoding {
  kind : ColumnEncoding_Kind
}.

(* ===================================================================== *)
(** ** StatsRecorder and BitUtils: the interfaces the writer calls *)
(* ===================================================================== *)

Module StatsRecorder.

(** The member functions of the statistics recorder that the writer calls
    ([utils]/[stats] are not among the sources).  [R] is the recorder, [S]
    the [ColumnStatistic] message it serializes to; [fresh] is a recorder
    as constructed, [cleared] a [ColumnStatistic] after [Clear()], and
    [record] stands for the value updates of the typed writers. *)
Class Ops (R S : Type) : Type := {
  fresh : R;
  reset : R -> R;
  setHasNull : R -> R;
  merge : R -> R -> R;
  serialize : R -> S;
  hasNull : R -> bool;
  record : list Z -> bool -> R -> R;
  cleared : S
}.

(** Modelled from the spec: the contract of the recorder.  [reset] leaves
    it empty, as constructed; the null mark is raised by [setHasNull] and by
    no value update; [merge] is cumulative, so the merged recorder carries
    the mark when either side did. *)
Class Laws (R S : Type) `{Ops R S} : Prop := {
  reset_fresh : forall r, reset r = fresh;
  hasNull_fresh : hasNull fresh = false;
  hasNull_setHasNull : forall r, hasNull (setHasNull r) = true;
  hasNull_merge : forall a b, hasNull (merge a b) = hasNull a || hasNull b;
  hasNull_record : forall v n r, hasNull (record v n r) = hasNull r
}.

End StatsRecorder.

Module BitUtils.

(** [BitUtils::bitWiseCompact(values, length, byteOrder)], declared in
    [utils/BitUtils.h]. *)
Class Packer : Type := {
  bitWiseCompact : list bool -> Z -> ByteOrder -> list Z
}.

(** ceil(n / 8) *)
Definition packedSize (n : Z) : Z := (n + 7) / 8.

(** The contract of the packer: the first [n] booleans go into ceil(n/8)
    bytes. *)
Definition contract `{Packer} : Prop :=
  forall (values : list bool) (n : Z) (bo : ByteOrder),
    0 <= n <= Z.of_nat (length values) ->
    Z.of_nat (length (bitWiseCompact values n bo)) = packedSize n.

End BitUtils.

(* ===================================================================== *)
(** ** ColumnWriter: the state *)
(* ===================================================================== *)

(** The getters of [PixelsWriterOption] that the constructor reads (the
    class is declared outside the sources). *)
Record PixelsWriterOption : Type := mkPixelsWriterOption {
  getPixelsStride : Z;
  getEncodingLevel : Z;
  getByteOrder : ByteOrder
}.

(** The data members of [ColumnWriter].  The two shared pointers to buffers
    and the one to the index are owned by the writer alone in this file, so
    each is the field's value. *)
Record ColumnWriter (R S : Type) : Type := mkColumnWriter {
  pixelStride : Z;
  encodingLevel : Z;
  byteOrder : ByteOrder;
  nullsPadding : bool;
  isNull : list bool;
  outputStream : ByteBuffer.t;
  isNullStream : ByteBuffer.t;
  columnChunkIndex : ColumnChunkIndex S;
  columnChunkStat : S;
  pixelStatRecorder : R;
  columnChunkStatRecorder : R;
  lastPixelPosition : Z;
  curPixelPosition : Z;
  curPixelEleIndex : Z;
  curPixelVectorIndex : Z;
  curPixelIsNullIndex : Z;
  hasNull : bool
}.
Arguments mkColumnWriter {R S} _ _ _ _ _ _ _ _ _ _ _ _ _ _ _ _ _.
Arguments pixelStride {R S} _.
Arguments encodingLevel {R S} _.
Arguments byteOrder {R S} _.
Arguments nullsPadding {R S} _.
Arguments isNull {R S} _.
Arguments outputStream {R S} _.
Arguments isNullStream {R S} _.
Arguments columnChunkIndex {R S} _.
Arguments columnChunkStat {R S} _.
Arguments pixelStatRecorder {R S} _.
Arguments columnChunkStatRecorder {R S} _.
Arguments lastPixelPosition {R S} _.
Arguments curPixelPosition {R S} _.
Arguments curPixelEleIndex {R S} _.
Arguments curPixelVectorIndex {R S} _.
Arguments curPixelIsNullIndex {R S} _.
Arguments hasNull {R S} _.

(** Assignments to one data member. *)
Definition set_isNull {R S} (v : list bool) (w : ColumnWriter R S) :=
  let '(mkColumnWriter a b c d _ f g h i j k l m n o p q) := w in
  mkColumnWriter a b c d v f g h i j k l m n o p q.
Definition set_outputStream {R S} (v : ByteBuffer.t) (w : ColumnWriter R S) :=
  let '(mkColumnWriter a b c d e _ g h i j k l m n o p q) := w in
  mkColumnWriter a b c d e v g h i j k l m n o p q.
Definition set_isNullStream {R S} (v : ByteBuffer.t) (w : ColumnWriter R S) :=
  let '(mkColumnWriter a b c d e f _ h i j k l m n o p q) := w in
  mkColumnWriter a b c d e f v h i j k l m n o p q.
Definition set_columnChunkIndex {R S} (v : ColumnChunkIndex S) (w : ColumnWriter R S) :=
  let '(mkColumnWriter a b c d e f g _ i j k l m n o p q) := w in
  mkColumnWriter a b c d e f g v i j k l m n o p q.
Definition set_columnChunkStat {R S} (v : S) (w : ColumnWriter R S) :=
  let '(mkColumnWriter a b c d e f g h _ j k l m n o p q) := w in
  mkColumnWriter a b c d e f g h v j k l m n o p q.
Definition set_pixelStatRecorder {R S} (v : R) (w : ColumnWriter R S) :=
  let '(mkColumnWriter a b c d e f g h i _ k l m n o p q) := w in
  mkColumnWriter a b c d e f g h i v k l m n o p q.
Definition set_columnChunkStatRecorder {R S} (v : R) (w : ColumnWriter R S) :=
  let '(mkColumnWriter a b c d e f g h i j _ l m n o p q) := w in
  mkColumnWriter a b c d e f g h i j v l m n o p q.
Definition set_lastPixelPosition {R S} (v : Z) (w : ColumnWriter R S) :=
  let '(mkColumnWriter a b c d e f g h i j k _ m n o p q) := w in
  mkColumnWriter a b c d e f g h i j k v m n o p q.
Definition set_curPixelPosition {R S} (v : Z) (w : ColumnWriter R S) :=
  let '(mkColumnWriter a b c d e f g h i j k l _ n o p q) := w in
  mkColumnWriter a b c d e f g h i j k l v n o p q.
Definition set_curPixelEleIndex {R S} (v : Z) (w : ColumnWriter R S) :=
  let '(mkColumnWriter a b c d e f g h i j k l m _ o p q) := w in
  mkColumnWriter a b c d e f g h i j k l m v o p q.
Definition set_curPixelVectorIndex {R S} (v : Z) (w : ColumnWriter R S) :=
  let '(mkColumnWriter a b c d e f g h i j k l m n _ p q) := w in
  mkColumnWriter a b c d e f g h i j k l m n v p q.
Definition set_curPixelIsNullIndex {R S} (v : Z) (w : ColumnWriter R S) :=
  let '(mkColumnWriter a b c d e f g h i j k l m n o _ q) := w in
  mkColumnWriter a b c d e f g h i j k l m n o v q.
Definition set_hasNull {R S} (v : bool) (w : ColumnWriter R S) :=
  let '(mkColumnWriter a b c d e f g h i j k l m n o p _) := w in
  mkColumnWriter a b c d e f g h i j k l m n o p v.

(* ===================================================================== *)
(** ** ColumnWriter: the member functions *)
(* ===================================================================== *)

Section Writer.

Context {R S : Type} `{StatsRecorder.Ops R S} `{BitUtils.Packer}.

(** [ColumnWriter::ISNULL_ALIGNMENT], read once from the configuration
    property [isnull.bitmap.alignment]. *)
Variable ISNULL_ALIGNMENT : Z.

(** [ISNULL_PADDING_BUFFER(ISNULL_ALIGNMENT, 0)] *)
Definition ISNULL_PADDING_BUFFER : list Z :=
  replicate (Z.to_nat ISNULL_ALIGNMENT) 0.

Abbreviation Writer := (ColumnWriter R S).

(** The constructor.  Its [type] argument is not read.  The members it does
    not name ([lastPixelPosition], [curPixelPosition], the three counters,
    [hasNull], the two recorders and [columnChunkStat]) take the
    initialisers of the class declaration, which is not among the sources;
    the spec has them zero, unset and empty after construction. *)
Definition ColumnWriter_new (writerOption : PixelsWriterOption) : Writer :=
  let pixelStride := getPixelsStride writerOption in
  let encodingLevel := getEncodingLevel writerOption in
  let byteOrder := getByteOrder writerOption in
  let nullsPadding := false in
  let isNull := replicate (Z.to_nat pixelStride) false in
  let outputStream := ByteBuffer.empty in
  let isNullStream := ByteBuffer.empty in
  let columnChunkIndex := ColumnChunkIndex_default in
  let columnChunkIndex :=
    set_littleendian (ByteOrder_eqb byteOrder PIXELS_LITTLE_ENDIAN) columnChunkIndex in
  let columnChunkIndex := set_nullspadding nullsPadding columnChunkIndex in
  let columnChunkIndex := set_isnullalignment ISNULL_ALIGNMENT columnChunkIndex in
  mkColumnWriter pixelStride encodingLevel byteOrder nullsPadding isNull
                 outputStream isNullStream columnChunkIndex
                 StatsRecorder.cleared StatsRecorder.fresh StatsRecorder.fresh
                 0 0 0 0 0 false.

(** [getColumnChunkContent() const] and [getColumnChunkSize() const]
    return their result next to the state they leave behind. *)
Definition getColumnChunkContent (w : Writer) : list Z * Writer :=
  let os := outputStream w in
  let begin_ := ByteBuffer.getReadPos os in
  let end_ := ByteBuffer.getWritePos os in
  (take (end_ - begin_) (drop begin_ (ByteBuffer.getPointer os)), w).

Definition getColumnChunkSize (w : Writer) : Z * Writer :=
  let os := outputStream w in
  (static_cast_int (Z.of_nat (ByteBuffer.getWritePos os)
                    - Z.of_nat (ByteBuffer.getReadPos os)), w).

Definition getNewColumnChunkIndex : ColumnChunkIndex S := ColumnChunkIndex_default.

Definition getColumnChunkIndex (w : Writer) : ColumnChunkIndex S := columnChunkIndex w.

Definition getColumnChunkEncoding (w : Writer) : ColumnEncoding :=
  mkColumnEncoding ColumnEncoding_Kind_NONE.

(** [ColumnWriter::newPixel] *)
Definition newPixel (w : Writer) : Writer :=
  let w :=
    if hasNull w then
      let compacted :=
        BitUtils.bitWiseCompact (isNull w) (curPixelIsNullIndex w) (byteOrder w) in
      let w := set_isNullStream
                 (ByteBuffer.putBytes (isNullStream w) compacted (length compacted)) w in
      set_pixelStatRecorder (StatsRecorder.setHasNull (pixelStatRecorder w)) w
    else w in
  let w := set_curPixelPosition
             (static_cast_int (Z.of_nat (ByteBuffer.getWritePos (outputStream w)))) w in
  let w := set_curPixelEleIndex 0 w in
  let w := set_curPixelVectorIndex 0 w in
  let w := set_curPixelIsNullIndex 0 w in
  let w := set_columnChunkStatRecorder
             (StatsRecorder.merge (columnChunkStatRecorder w) (pixelStatRecorder w)) w in
  let pixelStat := mkPixelStatistic (StatsRecorder.serialize (pixelStatRecorder w)) in
  let w := set_columnChunkIndex
             (add_pixelpositions (lastPixelPosition w) (columnChunkIndex w)) w in
  let w := set_columnChunkIndex
             (add_pixelstatistics pixelStat (columnChunkIndex w)) w in
  let w := set_lastPixelPosition (curPixelPosition w) w in
  let w := set_pixelStatRecorder (StatsRecorder.reset (pixelStatRecorder w)) w in
  set_hasNull false w.

(** [ColumnWriter::flush].  The count handed to [putBytes] is unsigned; a
    negative [alignBytes] needs a negative [ISNULL_ALIGNMENT], with which
    the padding buffer cannot be built, and counts as no bytes here. *)
Definition flush (w : Writer) : Writer :=
  let w := if curPixelEleIndex w >? 0 then newPixel w else w in
  let isNullOffset := static_cast_int (Z.of_nat (ByteBuffer.getWritePos (outputStream w))) in
  let '(w, isNullOffset) :=
    if negb (ISNULL_ALIGNMENT =? 0) && negb (int_rem isNullOffset ISNULL_ALIGNMENT =? 0)
    then
      let alignBytes := int_sub ISNULL_ALIGNMENT (int_rem isNullOffset ISNULL_ALIGNMENT) in
      let w := set_outputStream
                 (ByteBuffer.putBytes (outputStream w) ISNULL_PADDING_BUFFER
                                      (Z.to_nat alignBytes)) w in
      (w, int_add isNullOffset alignBytes)
    else (w, isNullOffset) in
  let w := set_columnChunkIndex (set_isnulloffset isNullOffset (columnChunkIndex w)) w in
  let ns := isNullStream w in
  set_outputStream
    (ByteBuffer.putBytes (outputStream w)
       (drop (ByteBuffer.getReadPos ns) (ByteBuffer.getPointer ns))
       (ByteBuffer.getWritePos ns - ByteBuffer.getReadPos ns)) w.

(** [ColumnWriter::reset] *)
Definition reset (w : Writer) : Writer :=
  let w := set_lastPixelPosition 0 w in
  let w := set_curPixelPosition 0 w in
  let w := set_columnChunkIndex (Clear (columnChunkIndex w)) w in
  let w := set_columnChunkStat StatsRecorder.cleared w in
  let w := set_pixelStatRecorder (StatsRecorder.reset (pixelStatRecorder w)) w in
  let w := set_columnChunkStatRecorder
             (StatsRecorder.reset (columnChunkStatRecorder w)) w in
  let w := set_outputStream (ByteBuffer.resetPosition (outputStream w)) w in
  set_isNullStream (ByteBuffer.resetPosition (isNullStream w)) w.

(** [ColumnWriter::close] *)
Definition close (w : Writer) : Writer :=
  let w := set_outputStream (ByteBuffer.clear (outputStream w)) w in
  set_isNullStream (ByteBuffer.clear (isNullStream w)) w.

(** Modelled from the spec: what a typed writer (a subclass, not among the
    sources) does for one row before the core is called again.  The spec's
    control flow has it append the row's value bytes to the value buffer and
    the row's null flag to the per-pixel accumulators: the flag goes into
    [isNull] at [curPixelIsNullIndex], [hasNull] is raised by a null row,
    the pixel recorder takes the value and the per-pixel counters advance.
    A flag written past the end of [isNull] is outside the contract of the
    subclasses; the list update leaves [isNull] as it is there. *)
Definition writeRow (value : list Z) (null : bool) (w : Writer) : Writer :=
  let w := set_isNull (<[Z.to_nat (curPixelIsNullIndex w) := null]> (isNull w)) w in
  let w := set_curPixelIsNullIndex (int_add (curPixelIsNullIndex w) 1) w in
  let w := set_hasNull (hasNull w || null) w in
  let w := set_outputStream
             (ByteBuffer.putBytes (outputStream w) value (length value)) w in
  let w := set_pixelStatRecorder
             (StatsRecorder.record value null (pixelStatRecorder w)) w in
  let w := set_curPixelVectorIndex (int_add (curPixelVectorIndex w) 1) w in
  set_curPixelEleIndex (int_add (curPixelEleIndex w) 1) w.

(** The pixel recorder as [newPixel] merges and serializes it, and the
    bytes [newPixel] appends to the null-bitmap buffer. *)
Definition closingRecorder (w : Writer) : R :=
  if hasNull w then StatsRecorder.setHasNull (pixelStatRecorder w)
  else pixelStatRecorder w.

Definition closingBitmap (w : Writer) : list Z :=
  if hasNull w
  then BitUtils.bitWiseCompact (isNull w) (curPixelIsNullIndex w) (byteOrder w)
  else [].

(** The state [flush] computes the null-bitmap offset from. *)
Definition flushed_pixel (w : Writer) : Writer :=
  if curPixelEleIndex w >? 0 then newPixel w else w.

(** The number of padding bytes that bring [offset] to a multiple of
    [ISNULL_ALIGNMENT]. *)
Definition paddingFor (offset : Z) : Z :=
  if ISNULL_ALIGNMENT =? 0 then 0
  else if offset mod ISNULL_ALIGNMENT =? 0 then 0
  else ISNULL_ALIGNMENT - offset mod ISNULL_ALIGNMENT.

(** *** Sequences of calls *)

(** The calls a typed writer and the stripe writer make on one
    [ColumnWriter]. *)
Inductive Op : Type :=
  | OpWrite (value : list Z) (null : bool)
  | OpNewPixel
  | OpFlush
  | OpReset
  | OpClose
  | OpGetColumnChunkContent
  | OpGetColumnChunkSize.

Definition step (o : Op) (w : Writer) : Writer :=
  match o with
  | OpWrite value null => writeRow value null w
  | OpNewPixel => newPixel w
  | OpFlush => flush w
  | OpReset => reset w
  | OpClose => close w
  | OpGetColumnChunkContent => snd (getColumnChunkContent w)
  | OpGetColumnChunkSize => snd (getColumnChunkSize w)
  end.

Fixpoint run (ops : list Op) (w : Writer) : Writer :=
  match ops with
  | [] => w
  | o :: ops' => run ops' (step o w)
  end.

(** Does this call go through [newPixel]? *)
Definition closesPixel (o : Op) (w : Writer) : bool :=
  match o with
  | OpNewPixel => true
  | OpFlush => curPixelEleIndex w >? 0
  | _ => false
  end.

(** The value-buffer write offset as a pixel boundary records it. *)
Definition boundaryOffset (w : Writer) : Z :=
  static_cast_int (Z.of_nat (ByteBuffer.getWritePos (outputStream w))).

(** The offsets recorded at the pixel boundaries of a run, oldest first,
    counted from the last [reset]. *)
Fixpoint boundaries (ops : list Op) (w : Writer) (seen : list Z) : list Z :=
  match ops with
  | [] => seen
  | o :: ops' =>
      let seen' :=
        match o with
        | OpReset => []
        | _ => if closesPixel o w then seen ++ [boundaryOffset w] else seen
        end in
      boundaries ops' (step o w) seen'
  end.

(** The recorded positions followed by the pending one are the start
    offset 0 followed by the boundaries seen so far. *)
Definition lagging (w : Writer) (seen : list Z) : Prop :=
  pixelpositions (columnChunkIndex w) ++ [lastPixelPosition w] = 0 :: seen.

(** Both buffers have their cursors in order and [isNull] has one entry per
    row of the stride. *)
Definition buffers_ok (w : Writer) : Prop :=
  ByteBuffer.wf (outputStream w)
  /\ ByteBuffer.wf (isNullStream w)
  /\ Z.of_nat (length (isNull w)) = pixelStride w.

(** No null seen: neither the pending pixel nor a recorder carries the
    null mark. *)
Definition nullFree (w : Writer) : Prop :=
  hasNull w = false
  /\ StatsRecorder.hasNull (pixelStatRecorder w) = false
  /\ StatsRecorder.hasNull (columnChunkStatRecorder w) = false.

(** The positions of the index are sorted and not negative, none is past
    the pending [lastPixelPosition], and that one is not past the write
    offset of the value buffer. *)
Definition ordered (w : Writer) : Prop :=
  StronglySorted Z.le (pixelpositions (columnChunkIndex w))
  /\ Forall (fun p => 0 <= p <= lastPixelPosition w)
            (pixelpositions (columnChunkIndex w))
  /\ 0 <= lastPixelPosition w <= Z.of_nat (ByteBuffer.getWritePos (outputStream w)).

(** The value buffer was never read from: its read cursor is at the start
    and its cursors are in order. *)
Definition unread (w : Writer) : Prop :=
  ByteBuffer.rpos (outputStream w) = 0%nat /\ ByteBuffer.wf (outputStream w).

(** The three chunk-wide flags of the index. *)
Definition indexFlags (w : Writer) : bool * bool * Z :=
  (littleendian (columnChunkIndex w),
   nullspadding (columnChunkIndex w),
   isnullalignment (columnChunkIndex w)).

(** The members that only the constructor assigns. *)
Definition configuration (w : Writer) : Z * Z * ByteOrder * bool :=
  (pixelStride w, encodingLevel w, byteOrder w, nullsPadding w).

(** The calls made while one chunk is written and read: all but [reset]
    and [close]. *)
Definition inChunk (o : Op) : bool :=
  match o with
  | OpReset | OpClose => false
  | _ => true
  end.

(** Two buffers with the same cursors and the same bytes below the write
    cursor; what the storage holds past the write cursor is left open. *)
Definition sameBytes (b1 b2 : ByteBuffer.t) : Prop :=
  ByteBuffer.rpos b1 = ByteBuffer.rpos b2
  /\ ByteBuffer.wpos b1 = ByteBuffer.wpos b2
  /\ take (ByteBuffer.wpos b1) (ByteBuffer.buf b1)
     = take (ByteBuffer.wpos b2) (ByteBuffer.buf b2)
  /\ ByteBuffer.wf b1 /\ ByteBuffer.wf b2.

(** A writer with its two buffers taken out. *)
Definition withoutBuffers (w : Writer) : Writer :=
  set_outputStream ByteBuffer.empty (set_isNullStream ByteBuffer.empty w).

(** Two writers that agree on every member but the storage of their buffers
    past the write cursors. *)
Definition sameChunk (w1 w2 : Writer) : Prop :=
  withoutBuffers w1 = withoutBuffers w2
  /\ sameBytes (outputStream w1) (outputStream w2)
  /\ sameBytes (isNullStream w1) (isNullStream w2).

(** Neither recorder carries the null mark. *)
Definition unmarked (w : Writer) : Prop :=
  StatsRecorder.hasNull (pixelStatRecorder w) = false
  /\ StatsRecorder.hasNull (columnChunkStatRecorder w) = false.

(** Does a call of the run close a pixel in which [hasNull] is set? *)
Fixpoint closesNullPixel (ops : list Op) (w : Writer) : bool :=
  match ops with
  | [] => false
  | o :: ops' =>
      (closesPixel o w && hasNull w) || closesNullPixel ops' (step o w)
  end.

Definition isReset (o : Op) : bool :=
  match o with OpReset => true | _ => false end.

Definition writesNull (o : Op) : bool :=
  match o with OpWrite _ null => null | _ => false end.

(** The index has as many pixel positions as pixel statistics. *)
Definition parity (w : Writer) : Prop :=
  length (pixelpositions (columnChunkIndex w))
  = length (pixelstatistics (columnChunkIndex w)).

End Writer.

(* ===================================================================== *)
(** ** Instances of the interfaces *)
(* ===================================================================== *)

Module BaseStats.

(** Modelled from the spec: a recorder with the capability set the spec
    lists (merge, reset, null mark, serialize), holding a value count and
    the null mark; its serialized form is the pair of the two. *)
Record t : Type := mk {
  numberOfValues : Z;
  hasNullValue : bool
}.

Definition fresh : t := mk 0 false.
Definition reset (r : t) : t := fresh.
Definition setHasNull (r : t) : t := mk (numberOfValues r) true.
Definition merge (r other : t) : t :=
  mk (numberOfValues r + numberOfValues other) (hasNullValue r || hasNullValue other).
Definition serialize (r : t) : t := r.
Definition record (value : list Z) (null : bool) (r : t) : t :=
  mk (numberOfValues r + 1) (hasNullValue r).

End BaseStats.

#[export] Instance BaseStats_Ops : StatsRecorder.Ops BaseStats.t BaseStats.t := {|
  StatsRecorder.fresh := BaseStats.fresh;
  StatsRecorder.reset := BaseStats.reset;
  StatsRecorder.setHasNull := BaseStats.setHasNull;
  StatsRecorder.merge := BaseStats.merge;
  StatsRecorder.serialize := BaseStats.serialize;
  StatsRecorder.hasNull := BaseStats.hasNullValue;
  StatsRecorder.record := BaseStats.record;
  StatsRecorder.cleared := BaseStats.fresh
|}.

Module BitPack.

(** Modelled from the spec: the bit packer, which the spec has pack the
    first [count] booleans into ceil(count/8) bytes, one bit per boolean in
    sequence order; little-endian order fills a byte from its lowest bit
    (a null at index 1 gives 0b00000010), big-endian order from its
    highest.  [filled] counts the bits already put into [current]. *)
Fixpoint pack (le : bool) (values : list bool) (current : Z) (filled : nat) : list Z :=
  match values with
  | [] => if (filled =? 0)%nat then [] else [current]
  | v :: values' =>
      let bit := if le then filled else (7 - filled)%nat in
      let current' := Z.lor current (Z.shiftl (Z.b2z v) (Z.of_nat bit)) in
      if (Datatypes.S filled =? 8)%nat
      then current' :: pack le values' 0 0
      else pack le values' current' (Datatypes.S filled)
  end.

Definition bitWiseCompact (values : list bool) (n : Z) (bo : ByteOrder) : list Z :=
  pack (ByteOrder_eqb bo PIXELS_LITTLE_ENDIAN) (take (Z.to_nat n) values) 0 0.

End BitPack.

#[export] Instance BitPack_Packer : BitUtils.Packer := {|
  BitUtils.bitWiseCompact := BitPack.bitWiseCompact
|}.

(** The writer of the examples: the recorder and the packer above. *)
Abbreviation Writer0 := (ColumnWriter BaseStats.t BaseStats.t).

Definition option_LE (stride : Z) : PixelsWriterOption :=
  mkPixelsWriterOption stride 0 PIXELS_LITTLE_ENDIAN.

(** A run under stride 2, little-endian order and alignment 4: two rows, the
    second one null, close the first pixel; a third row of nine value bytes
    is pending when the chunk is flushed. *)
Definition rows_of_pixel0 : list Op :=
  [OpWrite [1; 0; 0; 0; 0; 0; 0; 0] false; OpWrite [] true].

Definition writer_two_rows : Writer0 :=
  run 4 rows_of_pixel0 (ColumnWriter_new 4 (option_LE 2)).

Definition writer_pending : Writer0 :=
  run 4 [OpNewPixel; OpWrite [3; 0; 0; 0; 0; 0; 0; 0; 9] false] writer_two_rows.

(** The rows and calls of a second chunk without nulls. *)
Definition rows_of_chunk1 : list Op :=
  [OpWrite [5] false; OpWrite [6] false; OpNewPixel; OpWrite [7] false; OpFlush].

(** A null row left pending across a [reset], then a pixel of two rows
    without nulls. *)
Definition pending_null_run : list Op :=
  [OpWrite [] true; OpReset; OpWrite [1] false; OpWrite [2] false].

Definition chunk_run : list Op :=
  rows_of_pixel0 ++ [OpNewPixel; OpWrite [3; 0; 0; 0; 0; 0; 0; 0; 9] false; OpFlush].

(** A writer for little-endian order under alignment 8, and the same writer
    taken into its second chunk: reset, one null row, flush. *)
Definition writer_LE8 : Writer0 := ColumnWriter_new 8 (option_LE 2).

Definition second_chunk : Writer0 :=
  run 8 [OpReset; OpWrite [7] true; OpFlush] writer_LE8.

(* ===================================================================== *)
(** ** Machine integers and buffers: basic facts *)
(* ===================================================================== *)

Lemma static_cast_int_id (x : Z) :
  INT_MIN <= x <= INT_MAX -> static_cast_int x = x.
Proof.
  unfold INT_MIN, INT_MAX, static_cast_int.
  change (2 ^ 31) with 2147483648; change (2 ^ 32) with 4294967296.
  intros Hx. rewrite Z.mod_small by lia. lia.
Qed.

Lemma view_putBytes (b : ByteBuffer.t) (src : list Z) (len : nat) :
  ByteBuffer.wf b ->
  ByteBuffer.view (ByteBuffer.putBytes b src len) = ByteBuffer.view b ++ take len src.
Proof.
  destruct b as [buf rpos wpos]. unfold ByteBuffer.wf, ByteBuffer.view, ByteBuffer.putBytes.
  cbn. intros [Hr Hw].
  set (data := take len src).
  rewrite drop_app_le by (rewrite length_take; lia).
  rewrite take_app_ge by (rewrite length_drop, length_take; lia).
  rewrite length_drop, length_take.
  replace (wpos + length data - rpos - (wpos `min` length buf - rpos))%nat
    with (length data) by lia.
  rewrite take_app_length.
  f_equal.
  rewrite take_drop_commute. f_equal.
  replace (rpos + (wpos - rpos))%nat with wpos by lia.
  reflexivity.
Qed.

Lemma wf_putBytes (b : ByteBuffer.t) (src : list Z) (len : nat) :
  ByteBuffer.wf b -> ByteBuffer.wf (ByteBuffer.putBytes b src len).
Proof.
  destruct b as [buf rpos wpos]. unfold ByteBuffer.wf, ByteBuffer.putBytes.
  cbn. intros [Hr Hw]. split; [lia|].
  rewrite !length_app, !length_take, length_drop. lia.
Qed.

Lemma wf_empty : ByteBuffer.wf ByteBuffer.empty.
Proof. unfold ByteBuffer.wf. cbn. lia. Qed.

Lemma view_lookup (b : ByteBuffer.t) (i : nat) :
  (i < ByteBuffer.wpos b - ByteBuffer.rpos b)%nat ->
  ByteBuffer.view b !! i = ByteBuffer.buf b !! (ByteBuffer.rpos b + i)%nat.
Proof.
  intros Hi. unfold ByteBuffer.view.
  rewrite lookup_take_lt by lia. apply lookup_drop.
Qed.

Lemma view_length (b : ByteBuffer.t) :
  ByteBuffer.wf b ->
  length (ByteBuffer.view b) = (ByteBuffer.wpos b - ByteBuffer.rpos b)%nat.
Proof.
  unfold ByteBuffer.wf, ByteBuffer.view. intros [Hr Hw].
  rewrite length_take, length_drop. lia.
Qed.

(* ===================================================================== *)
(** ** The pixel boundary: [newPixel] *)
(* ===================================================================== *)

Ltac writer_fields :=
  intros;
  repeat match goal with w : ColumnWriter _ _ |- _ => destruct w end;
  cbn in *.

Section NewPixel.

Context {R S : Type} `{!StatsRecorder.Ops R S} `{!BitUtils.Packer}.
Implicit Types w : ColumnWriter R S.

Lemma newPixel_pixelpositions w :
  pixelpositions (columnChunkIndex (newPixel w))
  = pixelpositions (columnChunkIndex w) ++ [lastPixelPosition w].
Proof. unfold newPixel. writer_fields. destruct hasNull0; reflexivity. Qed.

Lemma newPixel_pixelstatistics w :
  pixelstatistics (columnChunkIndex (newPixel w))
  = pixelstatistics (columnChunkIndex w)
    ++ [mkPixelStatistic (StatsRecorder.serialize (closingRecorder w))].
Proof.
  unfold newPixel, closingRecorder. writer_fields. destruct hasNull0; reflexivity.
Qed.

Lemma newPixel_index_flags w :
  isnulloffset (columnChunkIndex (newPixel w)) = isnulloffset (columnChunkIndex w)
  /\ littleendian (columnChunkIndex (newPixel w)) = littleendian (columnChunkIndex w)
  /\ nullspadding (columnChunkIndex (newPixel w)) = nullspadding (columnChunkIndex w)
  /\ isnullalignment (columnChunkIndex (newPixel w))
     = isnullalignment (columnChunkIndex w).
Proof. unfold newPixel. writer_fields. destruct hasNull0; repeat split. Qed.

Lemma newPixel_lastPixelPosition w :
  lastPixelPosition (newPixel w) = boundaryOffset w.
Proof. unfold newPixel, boundaryOffset. writer_fields. destruct hasNull0; reflexivity. Qed.

Lemma newPixel_curPixelPosition w :
  curPixelPosition (newPixel w) = boundaryOffset w.
Proof. unfold newPixel, boundaryOffset. writer_fields. destruct hasNull0; reflexivity. Qed.

Lemma newPixel_outputStream w : outputStream (newPixel w) = outputStream w.
Proof. unfold newPixel. writer_fields. destruct hasNull0; reflexivity. Qed.

Lemma newPixel_isNullStream w :
  isNullStream (newPixel w)
  = if hasNull w
    then ByteBuffer.putBytes (isNullStream w) (closingBitmap w)
                             (length (closingBitmap w))
    else isNullStream w.
Proof. unfold newPixel, closingBitmap. writer_fields. destruct hasNull0; reflexivity. Qed.

Lemma newPixel_columnChunkStatRecorder w :
  columnChunkStatRecorder (newPixel w)
  = StatsRecorder.merge (columnChunkStatRecorder w) (closingRecorder w).
Proof.
  unfold newPixel, closingRecorder. writer_fields. destruct hasNull0; reflexivity.
Qed.

Lemma newPixel_pixelStatRecorder w :
  pixelStatRecorder (newPixel w) = StatsRecorder.reset (closingRecorder w).
Proof.
  unfold newPixel, closingRecorder. writer_fields. destruct hasNull0; reflexivity.
Qed.

Lemma newPixel_counters w :
  curPixelEleIndex (newPixel w) = 0
  /\ curPixelVectorIndex (newPixel w) = 0
  /\ curPixelIsNullIndex (newPixel w) = 0
  /\ hasNull (newPixel w) = false.
Proof. unfold newPixel. writer_fields. destruct hasNull0; repeat split. Qed.

End NewPixel.

(* ===================================================================== *)
(** ** What the other member functions leave alone *)
(* ===================================================================== *)

Section Frames.

Context {R S : Type} `{!StatsRecorder.Ops R S} `{!BitUtils.Packer}.
Variable ISNULL_ALIGNMENT : Z.
Implicit Types w : ColumnWriter R S.

Ltac flush_fields w :=
  unfold flush, flushed_pixel;
  generalize (if curPixelEleIndex w >? 0 then newPixel w else w);
  writer_fields;
  match goal with |- context [if ?c then _ else _] => destruct c end;
  cbn; repeat split.

(** Past the forced pixel boundary, [flush] writes the value buffer and
    [isNullOffset] and nothing else. *)
Lemma flush_frame w :
  let w1 := flushed_pixel w in
  let w' := flush ISNULL_ALIGNMENT w in
  pixelpositions (columnChunkIndex w') = pixelpositions (columnChunkIndex w1)
  /\ pixelstatistics (columnChunkIndex w') = pixelstatistics (columnChunkIndex w1)
  /\ lastPixelPosition w' = lastPixelPosition w1
  /\ curPixelPosition w' = curPixelPosition w1
  /\ pixelStatRecorder w' = pixelStatRecorder w1
  /\ columnChunkStatRecorder w' = columnChunkStatRecorder w1
  /\ isNullStream w' = isNullStream w1
  /\ hasNull w' = hasNull w1
  /\ curPixelEleIndex w' = curPixelEleIndex w1.
Proof. flush_fields w. Qed.

Lemma flush_index_flags w :
  let w1 := flushed_pixel w in
  let w' := flush ISNULL_ALIGNMENT w in
  littleendian (columnChunkIndex w') = littleendian (columnChunkIndex w1)
  /\ nullspadding (columnChunkIndex w') = nullspadding (columnChunkIndex w1)
  /\ isnullalignment (columnChunkIndex w') = isnullalignment (columnChunkIndex w1).
Proof. flush_fields w. Qed.

Lemma writeRow_frame value null w :
  let w' := writeRow value null w in
  columnChunkIndex w' = columnChunkIndex w
  /\ lastPixelPosition w' = lastPixelPosition w
  /\ columnChunkStatRecorder w' = columnChunkStatRecorder w
  /\ isNullStream w' = isNullStream w
  /\ pixelStatRecorder w' = StatsRecorder.record value null (pixelStatRecorder w)
  /\ hasNull w' = hasNull w || null.
Proof. unfold writeRow. writer_fields. repeat split. Qed.

Lemma close_frame w :
  let w' := close w in
  columnChunkIndex w' = columnChunkIndex w
  /\ lastPixelPosition w' = lastPixelPosition w
  /\ columnChunkStatRecorder w' = columnChunkStatRecorder w
  /\ pixelStatRecorder w' = pixelStatRecorder w
  /\ hasNull w' = hasNull w.
Proof. unfold close. writer_fields. repeat split. Qed.

Lemma reset_fields w :
  let w' := reset w in
  columnChunkIndex w' = ColumnChunkIndex_default
  /\ lastPixelPosition w' = 0
  /\ curPixelPosition w' = 0
  /\ columnChunkStat w' = StatsRecorder.cleared
  /\ pixelStatRecorder w' = StatsRecorder.reset (pixelStatRecorder w)
  /\ columnChunkStatRecorder w' = StatsRecorder.reset (columnChunkStatRecorder w)
  /\ outputStream w' = ByteBuffer.resetPosition (outputStream w)
  /\ isNullStream w' = ByteBuffer.resetPosition (isNullStream w)
  /\ hasNull w' = hasNull w.
Proof. unfold reset. writer_fields. repeat split. Qed.

Lemma flushed_pixel_cases w :
  (0 < curPixelEleIndex w /\ flushed_pixel w = newPixel w)
  \/ (curPixelEleIndex w <= 0 /\ flushed_pixel w = w).
Proof.
  unfold flushed_pixel. destruct (Z.gtb_spec (curPixelEleIndex w) 0); [left|right]; auto.
Qed.

End Frames.

(* ===================================================================== *)
(** ** The index over sequences of calls *)
(* ===================================================================== *)

Section Index.

Context {R S : Type} `{!StatsRecorder.Ops R S} `{!BitUtils.Packer}.
Variable ISNULL_ALIGNMENT : Z.
Implicit Types w : ColumnWriter R S.

Local Abbreviation step' := (step ISNULL_ALIGNMENT).
Local Abbreviation run' := (run ISNULL_ALIGNMENT).
Local Abbreviation boundaries' := (boundaries ISNULL_ALIGNMENT).

Lemma lagging_new opt : lagging (ColumnWriter_new ISNULL_ALIGNMENT opt) [].
Proof. reflexivity. Qed.

Lemma lagging_newPixel w seen :
  lagging w seen -> lagging (newPixel w) (seen ++ [boundaryOffset w]).
Proof.
  unfold lagging. intros Hl.
  rewrite newPixel_pixelpositions, newPixel_lastPixelPosition, Hl. reflexivity.
Qed.

Lemma lagging_step o w seen :
  lagging w seen ->
  lagging (step' o w)
          (match o with
           | OpReset => []
           | _ => if closesPixel o w then seen ++ [boundaryOffset w] else seen
           end).
Proof.
  intros Hl. destruct o; cbn [step closesPixel].
  - destruct (writeRow_frame value null w) as (Hi & Hp & _).
    unfold lagging. rewrite Hi, Hp. exact Hl.
  - apply lagging_newPixel, Hl.
  - destruct (flush_frame ISNULL_ALIGNMENT w) as (Hi & _ & Hp & _).
    unfold lagging. rewrite Hi, Hp.
    destruct (flushed_pixel_cases w) as [[Hc ->]|[Hc ->]].
    + apply Z.gtb_lt in Hc. rewrite Hc. apply lagging_newPixel, Hl.
    + destruct (Z.gtb_spec (curPixelEleIndex w) 0); [lia|]. exact Hl.
  - destruct (reset_fields w) as (Hi & Hp & _).
    unfold lagging. rewrite Hi, Hp. reflexivity.
  - destruct (close_frame w) as (Hi & Hp & _).
    unfold lagging. rewrite Hi, Hp. exact Hl.
  - exact Hl.
  - exact Hl.
Qed.

Lemma lagging_run ops : forall w seen,
  lagging w seen -> lagging (run' ops w) (boundaries' ops w seen).
Proof.
  induction ops as [|o ops IH]; intros w seen Hl; cbn [run boundaries].
  - exact Hl.
  - apply IH. apply (lagging_step o) in Hl. destruct o; exact Hl.
Qed.

(** C1. Every [newPixel] call appends to [pixelPositions] the value
    [lastPixelPosition] had before the call, and only then moves
    [lastPixelPosition] to the write offset of the value buffer (which the
    call does not move).  So over any sequence of calls on a new writer the
    recorded positions run one boundary behind: position 0 is 0 and
    position i+1 is the offset recorded at boundary i. *)
Theorem newPixel_position_lag :
  (forall w,
      pixelpositions (columnChunkIndex (newPixel w))
      = pixelpositions (columnChunkIndex w) ++ [lastPixelPosition w]
      /\ lastPixelPosition (newPixel w)
         = static_cast_int (Z.of_nat (ByteBuffer.getWritePos (outputStream w)))
      /\ outputStream (newPixel w) = outputStream w)
  /\ (forall opt ops,
        let w' := run' ops (ColumnWriter_new ISNULL_ALIGNMENT opt) in
        let recorded :=
          boundaries' ops (ColumnWriter_new ISNULL_ALIGNMENT opt) [] in
        let positions := pixelpositions (columnChunkIndex w') in
        positions ++ [lastPixelPosition w'] = 0 :: recorded
        /\ forall i : nat,
             (i < length positions)%nat ->
             positions !! i = match i with
                              | O => Some 0
                              | Datatypes.S j => recorded !! j
                              end).
Proof.
  split.
  - intros w. split; [apply newPixel_pixelpositions|].
    split; [apply newPixel_lastPixelPosition | apply newPixel_outputStream].
  - intros opt ops w' recorded positions.
    assert (Hl : positions ++ [lastPixelPosition w'] = 0 :: recorded)
      by (apply lagging_run, lagging_new).
    split; [exact Hl|].
    intros i Hi.
    rewrite <- (lookup_app_l positions [lastPixelPosition w'] i Hi), Hl.
    destruct i; reflexivity.
Qed.

Lemma parity_step o w : parity w -> parity (step' o w).
Proof.
  unfold parity. intros Hp. destruct o; cbn [step].
  - destruct (writeRow_frame value null w) as (-> & _). exact Hp.
  - rewrite newPixel_pixelpositions, newPixel_pixelstatistics, !length_app, Hp.
    reflexivity.
  - destruct (flush_frame ISNULL_ALIGNMENT w) as (-> & -> & _).
    destruct (flushed_pixel_cases w) as [[_ ->]|[_ ->]]; [|exact Hp].
    rewrite newPixel_pixelpositions, newPixel_pixelstatistics, !length_app, Hp.
    reflexivity.
  - destruct (reset_fields w) as (-> & _). reflexivity.
  - destruct (close_frame w) as (-> & _). exact Hp.
  - exact Hp.
  - exact Hp.
Qed.

Lemma parity_run ops : forall w, parity w -> parity (run' ops w).
Proof.
  induction ops as [|o ops IH]; intros w Hp; cbn [run]; [exact Hp|].
  apply IH, parity_step, Hp.
Qed.

(** C5. After every sequence of calls on a new writer the index holds as
    many pixel positions as pixel statistics.  A [newPixel] call appends one
    entry to each sequence; [flush] changes them as the [newPixel] call it
    makes for a pending pixel does, and not at all without one; a row
    write, [close] and the two content getters leave them as they are; no
    call but [reset] drops an entry, and [reset] empties both. *)
Theorem index_parity :
  (forall opt ops, parity (run' ops (ColumnWriter_new ISNULL_ALIGNMENT opt)))
  /\ (forall w, exists p s,
         pixelpositions (columnChunkIndex (newPixel w))
         = pixelpositions (columnChunkIndex w) ++ [p]
         /\ pixelstatistics (columnChunkIndex (newPixel w))
            = pixelstatistics (columnChunkIndex w) ++ [s])
  /\ (forall w,
         pixelpositions (columnChunkIndex (flush ISNULL_ALIGNMENT w))
         = pixelpositions (columnChunkIndex
                             (if curPixelEleIndex w >? 0 then newPixel w else w))
         /\ pixelstatistics (columnChunkIndex (flush ISNULL_ALIGNMENT w))
            = pixelstatistics (columnChunkIndex
                                 (if curPixelEleIndex w >? 0 then newPixel w else w)))
  /\ (forall o w,
         closesPixel o w = false -> isReset o = false ->
         pixelpositions (columnChunkIndex (step' o w))
         = pixelpositions (columnChunkIndex w)
         /\ pixelstatistics (columnChunkIndex (step' o w))
            = pixelstatistics (columnChunkIndex w))
  /\ (forall o w,
         isReset o = false ->
         pixelpositions (columnChunkIndex w)
           `prefix_of` pixelpositions (columnChunkIndex (step' o w))
         /\ pixelstatistics (columnChunkIndex w)
              `prefix_of` pixelstatistics (columnChunkIndex (step' o w)))
  /\ (forall w,
         pixelpositions (columnChunkIndex (reset w)) = []
         /\ pixelstatistics (columnChunkIndex (reset w)) = []).
Proof.
  split; [|split; [|split; [|split; [|split]]]].
  - intros opt ops. apply parity_run. reflexivity.
  - intros w. eexists _, _. split;
      [apply newPixel_pixelpositions | apply newPixel_pixelstatistics].
  - intros w. destruct (flush_frame ISNULL_ALIGNMENT w) as (Hp & Hs & _).
    split; [exact Hp | exact Hs].
  - intros o w Hc Hr. destruct o; cbn in Hc, Hr; try discriminate; cbn [step].
    + destruct (writeRow_frame value null w) as (-> & _). split; reflexivity.
    + destruct (flush_frame ISNULL_ALIGNMENT w) as (-> & -> & _).
      unfold flushed_pixel. rewrite Hc. split; reflexivity.
    + destruct (close_frame w) as (-> & _). split; reflexivity.
    + split; reflexivity.
    + split; reflexivity.
  - intros o w Hr. destruct o; cbn in Hr; try discriminate; cbn [step].
    + destruct (writeRow_frame value null w) as (-> & _). split; reflexivity.
    + rewrite newPixel_pixelpositions, newPixel_pixelstatistics.
      split; apply prefix_app_r; reflexivity.
    + destruct (flush_frame ISNULL_ALIGNMENT w) as (-> & -> & _).
      destruct (flushed_pixel_cases w) as [[_ ->]|[_ ->]]; [|split; reflexivity].
      rewrite newPixel_pixelpositions, newPixel_pixelstatistics.
      split; apply prefix_app_r; reflexivity.
    + destruct (close_frame w) as (-> & _). split; reflexivity.
    + split; reflexivity.
    + split; reflexivity.
  - intros w. destruct (reset_fields w) as (-> & _). split; reflexivity.
Qed.

End Index.

(* ===================================================================== *)
(** ** Chunk finalization: [flush] *)
(* ===================================================================== *)

Section Flush.

Context {R S : Type} `{!StatsRecorder.Ops R S} `{!BitUtils.Packer}.
Variable ISNULL_ALIGNMENT : Z.
Implicit Types w : ColumnWriter R S.

Local Abbreviation flush' := (flush ISNULL_ALIGNMENT).
Local Abbreviation paddingFor' := (paddingFor ISNULL_ALIGNMENT).

(** The two writes of [flush], statement by statement. *)
Lemma flush_effect w :
  let w1 := flushed_pixel w in
  let offset := static_cast_int (Z.of_nat (ByteBuffer.getWritePos (outputStream w1))) in
  let unaligned :=
    negb (ISNULL_ALIGNMENT =? 0) && negb (int_rem offset ISNULL_ALIGNMENT =? 0) in
  let alignBytes := int_sub ISNULL_ALIGNMENT (int_rem offset ISNULL_ALIGNMENT) in
  isnulloffset (columnChunkIndex (flush' w))
  = (if unaligned then int_add offset alignBytes else offset)
  /\ outputStream (flush' w)
     = ByteBuffer.putBytes
         (if unaligned
          then ByteBuffer.putBytes (outputStream w1)
                                   (ISNULL_PADDING_BUFFER ISNULL_ALIGNMENT)
                                   (Z.to_nat alignBytes)
          else outputStream w1)
         (drop (ByteBuffer.rpos (isNullStream w1)) (ByteBuffer.buf (isNullStream w1)))
         (ByteBuffer.wpos (isNullStream w1) - ByteBuffer.rpos (isNullStream w1)).
Proof.
  unfold flush, flushed_pixel.
  generalize (if curPixelEleIndex w >? 0 then newPixel w else w).
  writer_fields.
  match goal with |- context [if ?c then _ else _] => destruct c end;
    cbn; split; reflexivity.
Qed.

Lemma flushed_pixel_outputStream w : outputStream (flushed_pixel w) = outputStream w.
Proof.
  destruct (flushed_pixel_cases w) as [[_ ->]|[_ ->]];
    [apply newPixel_outputStream | reflexivity].
Qed.

Lemma paddingFor_range (offset : Z) :
  0 <= ISNULL_ALIGNMENT ->
  0 <= paddingFor' offset <= Z.max 0 (ISNULL_ALIGNMENT - 1).
Proof.
  intros HA. unfold paddingFor.
  destruct (Z.eqb_spec ISNULL_ALIGNMENT 0); [lia|].
  pose proof (Z.mod_pos_bound offset ISNULL_ALIGNMENT ltac:(lia)).
  destruct (Z.eqb_spec (offset mod ISNULL_ALIGNMENT) 0); lia.
Qed.

Lemma paddingFor_aligned (offset : Z) :
  0 < ISNULL_ALIGNMENT ->
  (offset + paddingFor' offset) mod ISNULL_ALIGNMENT = 0.
Proof.
  intros HA. unfold paddingFor.
  destruct (Z.eqb_spec ISNULL_ALIGNMENT 0); [lia|].
  destruct (Z.eqb_spec (offset mod ISNULL_ALIGNMENT) 0) as [E|E].
  - rewrite Z.add_0_r. exact E.
  - pose proof (Z.div_mod offset ISNULL_ALIGNMENT ltac:(lia)) as Hd.
    replace (offset + (ISNULL_ALIGNMENT - offset mod ISNULL_ALIGNMENT))
      with ((offset / ISNULL_ALIGNMENT + 1) * ISNULL_ALIGNMENT) by lia.
    apply Z.mod_mul. lia.
Qed.

(** The layout [flush] leaves in the value buffer when the offsets fit
    [int]: the bytes that were there, the padding, the null bitmap. *)
Lemma flush_layout w :
  ByteBuffer.wf (outputStream w) ->
  0 <= ISNULL_ALIGNMENT ->
  Z.of_nat (ByteBuffer.getWritePos (outputStream w)) + ISNULL_ALIGNMENT <= INT_MAX ->
  let offset := Z.of_nat (ByteBuffer.getWritePos (outputStream w)) in
  isnulloffset (columnChunkIndex (flush' w)) = offset + paddingFor' offset
  /\ ByteBuffer.view (outputStream (flush' w))
     = ByteBuffer.view (outputStream w)
       ++ replicate (Z.to_nat (paddingFor' offset)) 0
       ++ ByteBuffer.view (isNullStream (flushed_pixel w))
  /\ ByteBuffer.wf (outputStream (flush' w))
  /\ ByteBuffer.rpos (outputStream (flush' w)) = ByteBuffer.rpos (outputStream w).
Proof.
  intros Hwf HA Hmax offset.
  destruct (flush_effect w) as [Hoff Hout]. cbn zeta in Hoff, Hout.
  rewrite flushed_pixel_outputStream in Hoff, Hout.
  fold offset in Hoff, Hout.
  assert (Hcast : static_cast_int offset = offset).
  { apply static_cast_int_id. unfold INT_MIN, INT_MAX in *. subst offset. lia. }
  rewrite Hcast in Hoff, Hout.
  rewrite Hoff, Hout. clear Hoff Hout.
  unfold paddingFor, int_rem.
  destruct (Z.eqb_spec ISNULL_ALIGNMENT 0) as [E0|E0]; cbn [negb andb].
  - cbn [Z.to_nat replicate app].
    rewrite Z.add_0_r, view_putBytes by exact Hwf.
    repeat split; try reflexivity; try (apply wf_putBytes, Hwf).
  - rewrite Z.rem_mod_nonneg by (subst offset; lia).
    pose proof (Z.mod_pos_bound offset ISNULL_ALIGNMENT ltac:(lia)) as Hm.
    destruct (Z.eqb_spec (offset mod ISNULL_ALIGNMENT) 0) as [E|E]; cbn [negb].
    + cbn [Z.to_nat replicate app].
      rewrite Z.add_0_r, view_putBytes by exact Hwf.
      repeat split; try reflexivity; try (apply wf_putBytes, Hwf).
    + set (pad := ISNULL_ALIGNMENT - offset mod ISNULL_ALIGNMENT) in *.
      assert (Hpad : 0 < pad <= ISNULL_ALIGNMENT) by (subst pad; lia).
      assert (Hsub : int_sub ISNULL_ALIGNMENT (offset mod ISNULL_ALIGNMENT) = pad).
      { unfold int_sub. apply static_cast_int_id.
        unfold INT_MIN, INT_MAX in *. subst offset. fold pad. lia. }
      rewrite Hsub.
      assert (Hadd : int_add offset pad = offset + pad).
      { unfold int_add. apply static_cast_int_id.
        unfold INT_MIN, INT_MAX in *. subst offset. lia. }
      rewrite Hadd.
      rewrite !view_putBytes by (try apply wf_putBytes; exact Hwf).
      unfold ISNULL_PADDING_BUFFER. rewrite take_replicate.
      replace (Z.to_nat pad `min` Z.to_nat ISNULL_ALIGNMENT)%nat
        with (Z.to_nat pad) by lia.
      rewrite <- app_assoc.
      repeat split; try reflexivity; try (apply wf_putBytes, wf_putBytes, Hwf).
Qed.

(** C2. After [flush], with offsets that fit [int]: under an alignment
    greater than zero [isNullOffset] is a multiple of the alignment, no
    padding is appended when the raw write offset is already aligned, and
    exactly alignment - (offset mod alignment) zero bytes are appended when
    it is not; under alignment zero [isNullOffset] is the raw write offset
    and no padding is appended. *)
Theorem flush_isNullOffset_alignment w :
  ByteBuffer.wf (outputStream w) ->
  Z.of_nat (ByteBuffer.getWritePos (outputStream w)) + ISNULL_ALIGNMENT <= INT_MAX ->
  let offset := Z.of_nat (ByteBuffer.getWritePos (outputStream w)) in
  let bitmap :=
    ByteBuffer.view (isNullStream (if curPixelEleIndex w >? 0 then newPixel w else w)) in
  let w' := flush' w in
  (0 < ISNULL_ALIGNMENT ->
     isnulloffset (columnChunkIndex w') mod ISNULL_ALIGNMENT = 0
     /\ (offset mod ISNULL_ALIGNMENT = 0 ->
           isnulloffset (columnChunkIndex w') = offset
           /\ ByteBuffer.view (outputStream w')
              = ByteBuffer.view (outputStream w) ++ bitmap)
     /\ (offset mod ISNULL_ALIGNMENT <> 0 ->
           let alignBytes := ISNULL_ALIGNMENT - offset mod ISNULL_ALIGNMENT in
           isnulloffset (columnChunkIndex w') = offset + alignBytes
           /\ ByteBuffer.view (outputStream w')
              = ByteBuffer.view (outputStream w)
                ++ replicate (Z.to_nat alignBytes) 0 ++ bitmap))
  /\ (ISNULL_ALIGNMENT = 0 ->
        isnulloffset (columnChunkIndex w') = offset
        /\ ByteBuffer.view (outputStream w')
           = ByteBuffer.view (outputStream w) ++ bitmap).
Proof.
  intros Hwf Hmax offset bitmap w'.
  split.
  - intros HA.
    destruct (flush_layout w Hwf ltac:(lia) Hmax) as (Hoff & Hview & _).
    fold offset w' in Hoff, Hview. fold (flushed_pixel w) in bitmap.
    fold bitmap in Hview.
    split; [rewrite Hoff; apply paddingFor_aligned, HA|].
    unfold paddingFor in Hoff, Hview.
    destruct (Z.eqb_spec ISNULL_ALIGNMENT 0); [lia|].
    destruct (Z.eqb_spec (offset mod ISNULL_ALIGNMENT) 0) as [E|E].
    + split; [|intros; contradiction].
      intros _. rewrite Hoff, Hview, Z.add_0_r. split; reflexivity.
    + split; [intros; contradiction|].
      intros _ alignBytes. split; [exact Hoff | exact Hview].
  - intros HA.
    destruct (flush_layout w Hwf ltac:(lia) Hmax) as (Hoff & Hview & _).
    fold offset w' in Hoff, Hview. fold (flushed_pixel w) in bitmap.
    fold bitmap in Hview.
    unfold paddingFor in Hoff, Hview.
    destruct (Z.eqb_spec ISNULL_ALIGNMENT 0); [|lia].
    rewrite Hoff, Hview, Z.add_0_r. split; reflexivity.
Qed.

(** C4. After [flush], with offsets that fit [int], the unconsumed bytes
    of the value buffer are the value bytes that were there, then at most
    alignment - 1 zero bytes (none under alignment zero), then the
    unconsumed bytes of the null-bitmap buffer; [isNullOffset] is the write
    offset of the value buffer just before the bitmap bytes went in, the
    bitmap bytes are what the content holds from [isNullOffset] on, and the
    write offset ends right after them. *)
Theorem flush_chunk_layout w :
  ByteBuffer.wf (outputStream w) ->
  0 <= ISNULL_ALIGNMENT ->
  Z.of_nat (ByteBuffer.getWritePos (outputStream w)) + ISNULL_ALIGNMENT <= INT_MAX ->
  let values := ByteBuffer.view (outputStream w) in
  let bitmap :=
    ByteBuffer.view (isNullStream (if curPixelEleIndex w >? 0 then newPixel w else w)) in
  let w' := flush' w in
  let isNullOffset := isnulloffset (columnChunkIndex w') in
  exists pad : nat,
    Z.of_nat pad <= Z.max 0 (ISNULL_ALIGNMENT - 1)
    /\ ByteBuffer.view (outputStream w') = values ++ replicate pad 0 ++ bitmap
    /\ isNullOffset = Z.of_nat (ByteBuffer.getWritePos (outputStream w)) + Z.of_nat pad
    /\ Z.of_nat (ByteBuffer.getWritePos (outputStream w'))
       = isNullOffset + Z.of_nat (length bitmap)
    /\ drop (Z.to_nat isNullOffset - ByteBuffer.getReadPos (outputStream w'))
            (ByteBuffer.view (outputStream w'))
       = bitmap.
Proof.
  intros Hwf HA Hmax values bitmap w' isNullOffset.
  destruct (flush_layout w Hwf HA Hmax) as (Hoff & Hview & Hwf' & Hr).
  fold w' in Hoff, Hview, Hwf', Hr. fold (flushed_pixel w) in bitmap.
  fold bitmap values isNullOffset in Hoff, Hview.
  set (offset := Z.of_nat (ByteBuffer.getWritePos (outputStream w))) in *.
  pose proof (paddingFor_range offset HA) as Hp.
  set (pad := paddingFor ISNULL_ALIGNMENT offset) in *.
  pose proof (view_length _ Hwf) as Hlv. fold values in Hlv.
  pose proof (view_length _ Hwf') as Hlv'.
  rewrite Hview, !length_app, length_replicate, Hr in Hlv'.
  destruct Hwf as [Hrw Hwb]. destruct Hwf' as [Hrw' Hwb'].
  unfold ByteBuffer.getWritePos, ByteBuffer.getReadPos in *.
  exists (Z.to_nat pad).
  split; [lia|]. split; [exact Hview|]. split; [lia|]. split; [lia|].
  rewrite Hview, app_assoc.
  apply drop_app_length'.
  rewrite length_app, length_replicate, Hr. lia.
Qed.

End Flush.

(* ===================================================================== *)
(** ** The buffers over sequences of calls *)
(* ===================================================================== *)

Section Buffers.

Context {R S : Type} `{!StatsRecorder.Ops R S} `{!BitUtils.Packer}.
Variable ISNULL_ALIGNMENT : Z.
Implicit Types w : ColumnWriter R S.

Lemma buffers_ok_newPixel w : buffers_ok w -> buffers_ok (newPixel w).
Proof.
  unfold buffers_ok. intros (Ho & Hn & Hl).
  rewrite newPixel_outputStream, newPixel_isNullStream.
  split; [exact Ho|]. split.
  - destruct (hasNull w); [apply wf_putBytes|]; exact Hn.
  - unfold newPixel. clear Ho Hn. writer_fields. destruct hasNull0; exact Hl.
Qed.

Lemma buffers_ok_step o w : buffers_ok w -> buffers_ok (step ISNULL_ALIGNMENT o w).
Proof.
  intros Hw. destruct o; cbn [step]; try exact Hw.
  - destruct Hw as (Ho & Hn & Hl). unfold buffers_ok, writeRow.
    writer_fields. split; [apply wf_putBytes, Ho|]. split; [exact Hn|].
    rewrite length_insert. exact Hl.
  - apply buffers_ok_newPixel, Hw.
  - assert (H1 : buffers_ok (flushed_pixel w)).
    { destruct (flushed_pixel_cases w) as [[_ ->]|[_ ->]];
        [apply buffers_ok_newPixel|]; exact Hw. }
    destruct H1 as (Ho & Hn & Hl). unfold buffers_ok.
    destruct (flush_frame ISNULL_ALIGNMENT w) as (_ & _ & _ & _ & _ & _ & -> & _).
    destruct (flush_effect ISNULL_ALIGNMENT w) as [_ ->].
    split; [|split; [exact Hn|]].
    + apply wf_putBytes.
      match goal with |- context [if ?c then _ else _] => destruct c end;
        [apply wf_putBytes|]; exact Ho.
    + revert Hl. unfold flush, flushed_pixel.
      generalize (if curPixelEleIndex w >? 0 then newPixel w else w).
      clear. writer_fields.
      match goal with |- context [if ?c then _ else _] => destruct c end;
        cbn; exact Hl.
  - destruct Hw as (Ho & Hn & Hl). unfold buffers_ok, reset, ByteBuffer.wf in *.
    writer_fields. repeat split; lia.
  - destruct Hw as (Ho & Hn & Hl). unfold buffers_ok, close, ByteBuffer.wf in *.
    writer_fields. repeat split; lia.
Qed.

(** X8. Every writer reached from a new one (of a stride that is not
    negative) by a sequence of calls has the cursors of both buffers in
    order, the read cursor not past the write cursor and the write cursor
    within the storage, and [isNull] as long as the stride. *)
Lemma buffers_ok_run opt ops :
  0 <= getPixelsStride opt ->
  buffers_ok (run ISNULL_ALIGNMENT ops (ColumnWriter_new ISNULL_ALIGNMENT opt)).
Proof.
  intros Hs.
  assert (Hnew : buffers_ok (ColumnWriter_new ISNULL_ALIGNMENT opt)).
  { unfold buffers_ok. cbn. rewrite length_replicate.
    split; [apply wf_empty|]. split; [apply wf_empty | lia]. }
  revert Hnew. generalize (ColumnWriter_new ISNULL_ALIGNMENT opt).
  induction ops as [|o ops IH]; intros w Hw; cbn [run]; [exact Hw|].
  apply IH, buffers_ok_step, Hw.
Qed.

End Buffers.

(* ===================================================================== *)
(** ** The null bitmap of a pixel *)
(* ===================================================================== *)

Lemma pack_length (le : bool) (values : list bool) :
  forall (current : Z) (filled : nat),
    (filled < 8)%nat ->
    Z.of_nat (length (BitPack.pack le values current filled))
    = (Z.of_nat (length values) + Z.of_nat filled + 7) / 8.
Proof.
  induction values as [|v values IH]; intros current filled Hf; cbn [BitPack.pack length].
  - destruct (Nat.eqb_spec filled 0) as [->|Hn]; cbn [length].
    + reflexivity.
    + apply (Z.div_unique_pos _ _ (Z.of_nat 1) (Z.of_nat filled - 1)); lia.
  - destruct (Nat.eqb_spec (Datatypes.S filled) 8) as [E|E]; cbn [length].
    + rewrite !Nat2Z.inj_succ, IH by lia.
      replace (Z.succ (Z.of_nat (length values)) + Z.of_nat filled + 7)
        with (Z.of_nat (length values) + Z.of_nat 0 + 7 + 1 * 8) by lia.
      rewrite Z.div_add by lia. lia.
    + rewrite IH by lia. f_equal. lia.
Qed.

(** The packer of the examples keeps the contract. *)
Lemma BitPack_contract : BitUtils.contract.
Proof.
  intros values n bo Hn. cbn. unfold BitPack.bitWiseCompact, BitUtils.packedSize.
  rewrite pack_length by lia.
  rewrite length_take. f_equal. lia.
Qed.

Section Bitmap.

Context {R S : Type} `{!StatsRecorder.Ops R S} `{!BitUtils.Packer}.
Implicit Types w : ColumnWriter R S.

(** C3. A [newPixel] call on a pixel without nulls ([hasNull] unset)
    leaves the null-bitmap buffer as it is.  On a pixel with a null, with
    n = [curPixelIsNullIndex] rows written and n within the stride, the
    call appends the packed flags of these n rows, which are ceil(n/8)
    bytes under the contract of the packer. *)
Theorem newPixel_bitmap_bytes w :
  BitUtils.contract ->
  ByteBuffer.wf (isNullStream w) ->
  Z.of_nat (length (isNull w)) = pixelStride w ->
  0 <= curPixelIsNullIndex w <= pixelStride w ->
  (hasNull w = false -> isNullStream (newPixel w) = isNullStream w)
  /\ (hasNull w = true ->
      let n := curPixelIsNullIndex w in
      let packed := BitUtils.bitWiseCompact (isNull w) n (byteOrder w) in
      ByteBuffer.view (isNullStream (newPixel w))
      = ByteBuffer.view (isNullStream w) ++ packed
      /\ Z.of_nat (length packed) = (n + 7) / 8).
Proof.
  intros Hpack Hwf Hlen Hn. rewrite newPixel_isNullStream. split.
  - intros ->. reflexivity.
  - intros Hnull n packed. unfold closingBitmap. rewrite Hnull.
    fold n packed. split.
    + rewrite view_putBytes by exact Hwf.
      rewrite firstn_all. reflexivity.
    + apply Hpack. lia.
Qed.

End Bitmap.

(* ===================================================================== *)
(** ** The forced pixel boundary of [flush] *)
(* ===================================================================== *)

Section FlushBoundary.

Context {R S : Type} `{!StatsRecorder.Ops R S} `{!BitUtils.Packer}.
Variable ISNULL_ALIGNMENT : Z.
Implicit Types w : ColumnWriter R S.

Local Abbreviation flush' := (flush ISNULL_ALIGNMENT).

(** C6. With a pixel pending ([curPixelEleIndex] > 0), [flush] is
    [newPixel] followed by a [flush] that finds no pixel pending: the
    pending pixel gets its index entries and its recorder is merged into
    the chunk recorder before the offset is taken.  With
    [curPixelEleIndex] = 0 there is no boundary: index entries, recorders,
    positions and the null-bitmap buffer stay as they are. *)
Theorem flush_pending_pixel w :
  (0 < curPixelEleIndex w ->
     flush' w = flush' (newPixel w)
     /\ curPixelEleIndex (newPixel w) = 0
     /\ pixelpositions (columnChunkIndex (flush' w))
        = pixelpositions (columnChunkIndex w) ++ [lastPixelPosition w]
     /\ pixelstatistics (columnChunkIndex (flush' w))
        = pixelstatistics (columnChunkIndex w)
          ++ [mkPixelStatistic (StatsRecorder.serialize (closingRecorder w))]
     /\ columnChunkStatRecorder (flush' w)
        = StatsRecorder.merge (columnChunkStatRecorder w) (closingRecorder w))
  /\ (curPixelEleIndex w = 0 ->
        pixelpositions (columnChunkIndex (flush' w))
        = pixelpositions (columnChunkIndex w)
        /\ pixelstatistics (columnChunkIndex (flush' w))
           = pixelstatistics (columnChunkIndex w)
        /\ columnChunkStatRecorder (flush' w) = columnChunkStatRecorder w
        /\ pixelStatRecorder (flush' w) = pixelStatRecorder w
        /\ lastPixelPosition (flush' w) = lastPixelPosition w
        /\ curPixelPosition (flush' w) = curPixelPosition w
        /\ isNullStream (flush' w) = isNullStream w).
Proof.
  pose proof (flush_frame ISNULL_ALIGNMENT w)
    as (Hp & Hs & Hl & Hc & Hpr & Hcr & Hn & _).
  cbn zeta in *.
  split; intros Hcur.
  - assert (Hw1 : flushed_pixel w = newPixel w).
    { destruct (flushed_pixel_cases w) as [[_ E]|[Hle _]]; [exact E | lia]. }
    rewrite Hw1 in *.
    destruct (newPixel_counters w) as (Hzero & _).
    split.
    + unfold flush. rewrite Hzero.
      apply Z.gtb_lt in Hcur. rewrite Hcur. reflexivity.
    + split; [exact Hzero|].
      rewrite Hp, Hs, Hcr.
      rewrite newPixel_pixelpositions, newPixel_pixelstatistics,
        newPixel_columnChunkStatRecorder.
      repeat split.
  - assert (Hw1 : flushed_pixel w = w).
    { destruct (flushed_pixel_cases w) as [[Hlt _]|[_ E]]; [lia | exact E]. }
    rewrite Hw1 in *. repeat split; assumption.
Qed.

End FlushBoundary.

(* ===================================================================== *)
(** ** Reuse: [reset] *)
(* ===================================================================== *)

#[export] Instance BaseStats_Laws : StatsRecorder.Laws BaseStats.t BaseStats.t.
Proof.
  split; intros; try reflexivity.
Qed.

Section Reset.

Context {R S : Type} `{!StatsRecorder.Ops R S} `{!BitUtils.Packer}.
Context `{!StatsRecorder.Laws R S}.
Variable ISNULL_ALIGNMENT : Z.
Implicit Types w : ColumnWriter R S.

Local Abbreviation run' := (run ISNULL_ALIGNMENT).
Local Abbreviation step' := (step ISNULL_ALIGNMENT).

(** C8. After [reset] the index has no pixel positions and no pixel
    statistics, [isNullOffset] is zero, and both recorders are as
    constructed; a second [reset] right after the first changes nothing. *)
Theorem reset_idempotent w :
  pixelpositions (columnChunkIndex (reset w)) = []
  /\ pixelstatistics (columnChunkIndex (reset w)) = []
  /\ isnulloffset (columnChunkIndex (reset w)) = 0
  /\ pixelStatRecorder (reset w) = StatsRecorder.fresh
  /\ columnChunkStatRecorder (reset w) = StatsRecorder.fresh
  /\ reset (reset w) = reset w.
Proof.
  unfold reset. writer_fields.
  rewrite !StatsRecorder.reset_fresh. repeat split.
Qed.

Lemma nullFree_step o w :
  writesNull o = false ->
  nullFree w -> nullFree (step' o w).
Proof.
  unfold nullFree. intros Ho (Hh & Hp & Hc).
  assert (Hnp : nullFree (newPixel w)).
  { unfold nullFree.
    destruct (newPixel_counters w) as (_ & _ & _ & ->).
    rewrite newPixel_pixelStatRecorder, newPixel_columnChunkStatRecorder.
    unfold closingRecorder. rewrite Hh.
    rewrite StatsRecorder.reset_fresh, StatsRecorder.hasNull_fresh.
    rewrite StatsRecorder.hasNull_merge, Hp, Hc. repeat split. }
  destruct o; cbn [step writesNull] in *.
  - destruct (writeRow_frame value null w) as (_ & _ & -> & _ & -> & ->).
    rewrite StatsRecorder.hasNull_record, Hh, Ho, Hp, Hc. repeat split.
  - exact Hnp.
  - destruct (flush_frame ISNULL_ALIGNMENT w)
      as (_ & _ & _ & _ & -> & -> & _ & -> & _).
    destruct (flushed_pixel_cases w) as [[_ ->]|[_ ->]];
      [exact Hnp | repeat split; assumption].
  - destruct (reset_fields w) as (_ & _ & _ & _ & -> & -> & _ & _ & ->).
    rewrite !StatsRecorder.reset_fresh, StatsRecorder.hasNull_fresh.
    repeat split; assumption.
  - destruct (close_frame w) as (_ & _ & -> & -> & ->).
    repeat split; assumption.
  - repeat split; assumption.
  - repeat split; assumption.
Qed.

Lemma nullFree_run ops : forall w,
  existsb writesNull ops = false ->
  nullFree w -> nullFree (run' ops w).
Proof.
  induction ops as [|o ops IH]; intros w Ho Hw; cbn [run]; [exact Hw|].
  cbn [existsb] in Ho. apply orb_false_iff in Ho as [Ho Hops].
  apply IH; [exact Hops|]. apply nullFree_step; assumption.
Qed.

Lemma chunk_mark_step o w :
  isReset o = false ->
  StatsRecorder.hasNull (columnChunkStatRecorder w) = true ->
  StatsRecorder.hasNull (columnChunkStatRecorder (step' o w)) = true.
Proof.
  intros Ho Hc.
  assert (Hnp : StatsRecorder.hasNull (columnChunkStatRecorder (newPixel w)) = true).
  { rewrite newPixel_columnChunkStatRecorder, StatsRecorder.hasNull_merge, Hc.
    reflexivity. }
  destruct o; cbn [step isReset] in *; try discriminate.
  - destruct (writeRow_frame value null w) as (_ & _ & -> & _). exact Hc.
  - exact Hnp.
  - destruct (flush_frame ISNULL_ALIGNMENT w) as (_ & _ & _ & _ & _ & -> & _).
    destruct (flushed_pixel_cases w) as [[_ ->]|[_ ->]]; assumption.
  - destruct (close_frame w) as (_ & _ & -> & _). exact Hc.
  - exact Hc.
  - exact Hc.
Qed.

Lemma chunk_mark_run ops : forall w,
  existsb isReset ops = false ->
  StatsRecorder.hasNull (columnChunkStatRecorder w) = true ->
  StatsRecorder.hasNull (columnChunkStatRecorder (run' ops w)) = true.
Proof.
  induction ops as [|o ops IH]; intros w Ho Hw; cbn [run]; [exact Hw|].
  cbn [existsb] in Ho. apply orb_false_iff in Ho as [Ho Hops].
  apply IH; [exact Hops|]. apply chunk_mark_step; assumption.
Qed.

Lemma unmarked_step o w :
  closesPixel o w && hasNull w = false ->
  unmarked w -> unmarked (step' o w).
Proof.
  unfold unmarked. intros Ho (Hp & Hc).
  assert (Hnp : hasNull w = false -> unmarked (newPixel w)).
  { intros Hh. unfold unmarked.
    rewrite newPixel_pixelStatRecorder, newPixel_columnChunkStatRecorder.
    unfold closingRecorder. rewrite Hh.
    rewrite StatsRecorder.reset_fresh, StatsRecorder.hasNull_fresh.
    rewrite StatsRecorder.hasNull_merge, Hp, Hc. split; reflexivity. }
  destruct o; cbn [step closesPixel] in *; try (split; assumption).
  - destruct (writeRow_frame value null w) as (_ & _ & -> & _ & -> & _).
    rewrite StatsRecorder.hasNull_record. split; assumption.
  - apply Hnp. exact Ho.
  - destruct (flush_frame ISNULL_ALIGNMENT w) as (_ & _ & _ & _ & -> & -> & _).
    destruct (flushed_pixel_cases w) as [[Hlt ->]|[_ ->]]; [|split; assumption].
    apply Hnp. apply Z.gtb_lt in Hlt. rewrite Hlt in Ho. exact Ho.
  - destruct (reset_fields w) as (_ & _ & _ & _ & -> & -> & _).
    rewrite !StatsRecorder.reset_fresh, StatsRecorder.hasNull_fresh.
    split; reflexivity.
  - destruct (close_frame w) as (_ & _ & -> & -> & _). split; assumption.
Qed.

Lemma unmarked_run ops : forall w,
  closesNullPixel ISNULL_ALIGNMENT ops w = false ->
  unmarked w -> unmarked (run' ops w).
Proof.
  induction ops as [|o ops IH]; intros w Ho Hw; cbn [run]; [exact Hw|].
  cbn [closesNullPixel] in Ho. apply orb_false_iff in Ho as [Ho Hops].
  apply IH; [exact Hops|]. apply unmarked_step; assumption.
Qed.

Lemma unmarked_reset w : unmarked (reset w).
Proof.
  unfold unmarked. destruct (reset_fields w) as (_ & _ & _ & _ & -> & -> & _).
  rewrite !StatsRecorder.reset_fresh, StatsRecorder.hasNull_fresh. split; reflexivity.
Qed.

Lemma unmarked_new opt : unmarked (ColumnWriter_new ISNULL_ALIGNMENT opt).
Proof.
  unfold unmarked. cbn. rewrite StatsRecorder.hasNull_fresh. split; reflexivity.
Qed.

(** C9. A [newPixel] call on a pixel with [hasNull] set leaves the chunk
    recorder marked as having seen a null; the mark stays through every
    later call that is not a [reset], and [reset] takes it away.  A chunk
    starts at a new writer or at a [reset].  On a new writer, as long as no
    row written was null, the chunk recorder does not report a null.  The
    same holds of the chunk after a [reset] that found [hasNull] clear (as
    [flush] leaves it), whatever the chunks before it held.  And in every
    chunk, after a [reset] in whatever state or on a new writer, as long as
    no pixel was closed with [hasNull] set the chunk recorder does not
    report a null. *)
Theorem chunk_recorder_hasNull :
  (forall w,
      hasNull w = true ->
      StatsRecorder.hasNull (columnChunkStatRecorder (newPixel w)) = true)
  /\ (forall ops w,
        existsb isReset ops = false ->
        StatsRecorder.hasNull (columnChunkStatRecorder w) = true ->
        StatsRecorder.hasNull (columnChunkStatRecorder (run' ops w)) = true)
  /\ (forall w,
        StatsRecorder.hasNull (columnChunkStatRecorder (reset w)) = false)
  /\ (forall opt ops,
        existsb writesNull ops = false ->
        StatsRecorder.hasNull
          (columnChunkStatRecorder
             (run' ops (ColumnWriter_new ISNULL_ALIGNMENT opt))) = false)
  /\ (forall w ops,
        hasNull w = false ->
        existsb writesNull ops = false ->
        StatsRecorder.hasNull (columnChunkStatRecorder (run' ops (reset w))) = false)
  /\ (forall w ops,
        closesNullPixel ISNULL_ALIGNMENT ops (reset w) = false ->
        StatsRecorder.hasNull (columnChunkStatRecorder (run' ops (reset w))) = false)
  /\ (forall opt ops,
        closesNullPixel ISNULL_ALIGNMENT ops (ColumnWriter_new ISNULL_ALIGNMENT opt)
        = false ->
        StatsRecorder.hasNull
          (columnChunkStatRecorder
             (run' ops (ColumnWriter_new ISNULL_ALIGNMENT opt))) = false).
Proof.
  split; [|split; [|split; [|split; [|split; [|split]]]]].
  - intros w Hn.
    rewrite newPixel_columnChunkStatRecorder, StatsRecorder.hasNull_merge.
    unfold closingRecorder. rewrite Hn, StatsRecorder.hasNull_setHasNull.
    apply orb_true_r.
  - intros ops w. apply chunk_mark_run.
  - intros w. destruct (reset_fields w) as (_ & _ & _ & _ & _ & -> & _).
    rewrite StatsRecorder.reset_fresh. apply StatsRecorder.hasNull_fresh.
  - intros opt ops Hops.
    apply (nullFree_run ops (ColumnWriter_new ISNULL_ALIGNMENT opt) Hops).
    unfold nullFree. cbn. rewrite StatsRecorder.hasNull_fresh. repeat split.
  - intros w ops Hh Hops.
    apply (nullFree_run ops (reset w) Hops).
    destruct (unmarked_reset w) as [Hp Hc].
    destruct (reset_fields w) as (_ & _ & _ & _ & _ & _ & _ & _ & Hk).
    unfold nullFree. rewrite Hk. repeat split; assumption.
  - intros w ops Hops.
    apply (unmarked_run ops (reset w) Hops), unmarked_reset.
  - intros opt ops Hops.
    apply (unmarked_run ops (ColumnWriter_new ISNULL_ALIGNMENT opt) Hops), unmarked_new.
Qed.

End Reset.

(* ===================================================================== *)
(** ** The content getters *)
(* ===================================================================== *)

Section Content.

Context {R S : Type} `{!StatsRecorder.Ops R S} `{!BitUtils.Packer}.
Implicit Types w : ColumnWriter R S.

(** C10. [getColumnChunkContent] and [getColumnChunkSize] hand the
    writer back as they got it.  The content is a copy of the bytes of the
    value buffer from the read cursor up to the write cursor, the size
    (when it fits [int]) is the length of that range, and a second call
    right after the first returns the same. *)
Theorem chunk_content_observers w :
  ByteBuffer.wf (outputStream w) ->
  Z.of_nat (ByteBuffer.getWritePos (outputStream w)
            - ByteBuffer.getReadPos (outputStream w)) <= INT_MAX ->
  let os := outputStream w in
  let content := fst (getColumnChunkContent w) in
  snd (getColumnChunkContent w) = w
  /\ snd (getColumnChunkSize w) = w
  /\ length content = (ByteBuffer.getWritePos os - ByteBuffer.getReadPos os)%nat
  /\ (forall i : nat,
        (i < ByteBuffer.getWritePos os - ByteBuffer.getReadPos os)%nat ->
        content !! i = ByteBuffer.getPointer os !! (ByteBuffer.getReadPos os + i)%nat)
  /\ fst (getColumnChunkSize w) = Z.of_nat (length content)
  /\ fst (getColumnChunkContent (snd (getColumnChunkContent w))) = content
  /\ fst (getColumnChunkContent (snd (getColumnChunkSize w))) = content
  /\ fst (getColumnChunkSize (snd (getColumnChunkSize w))) = fst (getColumnChunkSize w)
  /\ fst (getColumnChunkSize (snd (getColumnChunkContent w)))
     = fst (getColumnChunkSize w).
Proof.
  intros Hwf Hmax os content.
  assert (Hlen : length content
                 = (ByteBuffer.getWritePos os - ByteBuffer.getReadPos os)%nat)
    by (apply (view_length os Hwf)).
  split; [reflexivity|]. split; [reflexivity|]. split; [exact Hlen|].
  split; [intros i Hi; apply (view_lookup os i Hi)|].
  split; [|repeat split].
  rewrite Hlen. unfold getColumnChunkSize. cbn [fst].
  destruct Hwf as [Hr Hw]. subst os.
  unfold ByteBuffer.getWritePos, ByteBuffer.getReadPos in *.
  rewrite static_cast_int_id; unfold INT_MIN, INT_MAX in *; lia.
Qed.

End Content.

(* ===================================================================== *)
(** ** [reset] against the constructor *)
(* ===================================================================== *)

(** C7. [reset] does not bring back the chunk-wide flags of the index.  A
    writer built for little-endian order under alignment 8 has
    [littleEndian] set and [isNullAlignment] 8 in its index; after [reset]
    the index reads big-endian and alignment 0.  The writer itself goes on
    as before: in the next chunk the bitmap is still packed little-endian
    (the null of row 0 is bit 0) and [flush] still pads the one value byte
    to offset 8. *)
Theorem reset_forgets_index_flags :
  (littleendian (columnChunkIndex writer_LE8) = true
   /\ nullspadding (columnChunkIndex writer_LE8) = false
   /\ isnullalignment (columnChunkIndex writer_LE8) = 8)
  /\ (littleendian (columnChunkIndex (reset writer_LE8)) = false
      /\ nullspadding (columnChunkIndex (reset writer_LE8)) = false
      /\ isnullalignment (columnChunkIndex (reset writer_LE8)) = 0)
  /\ (littleendian (columnChunkIndex second_chunk) = false
      /\ isnullalignment (columnChunkIndex second_chunk) = 0
      /\ isnulloffset (columnChunkIndex second_chunk) = 8
      /\ fst (getColumnChunkContent second_chunk) = [7; 0; 0; 0; 0; 0; 0; 0; 1]).
Proof. vm_compute. repeat split. Qed.

(* ===================================================================== *)
(** ** The properties on the example run *)
(* ===================================================================== *)

(** The run of the example, end to end: the first pixel packs its two
    flags into the byte 0b00000010, the positions recorded are 0 and 8, and
    the 17 value bytes are padded to offset 20, where the bitmap byte
    follows. *)
Example chunk_run_result :
  let w := run 4 chunk_run (ColumnWriter_new (R:=BaseStats.t) 4 (option_LE 2)) in
  pixelpositions (columnChunkIndex w) = [0; 8]
  /\ length (pixelstatistics (columnChunkIndex w)) = 2%nat
  /\ isnulloffset (columnChunkIndex w) = 20
  /\ ByteBuffer.view (isNullStream w) = [2]
  /\ fst (getColumnChunkContent w)
     = [1; 0; 0; 0; 0; 0; 0; 0; 3; 0; 0; 0; 0; 0; 0; 0; 9; 0; 0; 0; 2]
  /\ fst (getColumnChunkSize w) = 21
  /\ BaseStats.hasNullValue (columnChunkStatRecorder w) = true.
Proof. vm_compute. repeat split. Qed.

Lemma wf_writer_pending : ByteBuffer.wf (outputStream writer_pending).
Proof. unfold ByteBuffer.wf. vm_compute. lia. Qed.

Lemma fits_writer_pending :
  Z.of_nat (ByteBuffer.getWritePos (outputStream writer_pending)) + 4 <= INT_MAX.
Proof. apply Z.leb_le. vm_compute. reflexivity. Qed.

Lemma newPixel_position_lag_witness :
  (1 < length (pixelpositions
                 (columnChunkIndex (run 4 chunk_run (ColumnWriter_new 4 (option_LE 2))))))%nat
  /\ pixelpositions
       (columnChunkIndex (run 4 chunk_run (ColumnWriter_new 4 (option_LE 2)))) !! 1%nat
     = boundaries 4 chunk_run (ColumnWriter_new 4 (option_LE 2)) [] !! 0%nat.
Proof.
  assert (Hi : (1 < length (pixelpositions
                    (columnChunkIndex
                       (run 4 chunk_run
                          (ColumnWriter_new (R:=BaseStats.t) 4 (option_LE 2))))))%nat)
    by (vm_compute; lia).
  split; [exact Hi|].
  exact (proj2 (proj2 (newPixel_position_lag 4) (option_LE 2) chunk_run) 1%nat Hi).
Defined.

Lemma index_parity_witness :
  closesPixel OpClose writer_pending = false
  /\ isReset OpClose = false
  /\ pixelpositions (columnChunkIndex (step 4 OpClose writer_pending))
     = pixelpositions (columnChunkIndex writer_pending)
  /\ pixelstatistics (columnChunkIndex (step 4 OpClose writer_pending))
     = pixelstatistics (columnChunkIndex writer_pending).
Proof.
  split; [reflexivity|]. split; [reflexivity|].
  exact (proj1 (proj2 (proj2 (proj2 (index_parity 4))))
           OpClose writer_pending eq_refl eq_refl).
Defined.

Lemma flush_isNullOffset_alignment_witness :
  ByteBuffer.wf (outputStream writer_pending)
  /\ Z.of_nat (ByteBuffer.getWritePos (outputStream writer_pending)) + 4 <= INT_MAX
  /\ 0 < 4
  /\ isnulloffset (columnChunkIndex (flush 4 writer_pending)) mod 4 = 0.
Proof.
  split; [exact wf_writer_pending|]. split; [exact fits_writer_pending|].
  split; [lia|].
  exact (proj1 (proj1 (flush_isNullOffset_alignment 4 writer_pending
                         wf_writer_pending fits_writer_pending)
                  ltac:(lia))).
Defined.

Lemma flush_chunk_layout_witness :
  ByteBuffer.wf (outputStream writer_pending)
  /\ 0 <= 4
  /\ Z.of_nat (ByteBuffer.getWritePos (outputStream writer_pending)) + 4 <= INT_MAX
  /\ exists pad : nat,
       Z.of_nat pad <= Z.max 0 (4 - 1)
       /\ ByteBuffer.view (outputStream (flush 4 writer_pending))
          = ByteBuffer.view (outputStream writer_pending)
            ++ replicate pad 0
            ++ ByteBuffer.view
                 (isNullStream (if curPixelEleIndex writer_pending >? 0
                                then newPixel writer_pending else writer_pending)).
Proof.
  split; [exact wf_writer_pending|]. split; [lia|].
  split; [exact fits_writer_pending|].
  destruct (flush_chunk_layout 4 writer_pending wf_writer_pending ltac:(lia)
              fits_writer_pending) as (pad & Hpad & Hview & _).
  exists pad. split; [exact Hpad | exact Hview].
Defined.

Lemma newPixel_bitmap_bytes_witness :
  BitUtils.contract
  /\ ByteBuffer.wf (isNullStream writer_two_rows)
  /\ Z.of_nat (length (isNull writer_two_rows)) = pixelStride writer_two_rows
  /\ 0 <= curPixelIsNullIndex writer_two_rows <= pixelStride writer_two_rows
  /\ hasNull writer_two_rows = true
  /\ Z.of_nat (length (BitUtils.bitWiseCompact (isNull writer_two_rows)
                                               (curPixelIsNullIndex writer_two_rows)
                                               (byteOrder writer_two_rows)))
     = (curPixelIsNullIndex writer_two_rows + 7) / 8.
Proof.
  assert (Hwf : ByteBuffer.wf (isNullStream writer_two_rows))
    by (unfold ByteBuffer.wf; vm_compute; lia).
  assert (Hlen : Z.of_nat (length (isNull writer_two_rows)) = pixelStride writer_two_rows)
    by (vm_compute; reflexivity).
  assert (Hn : 0 <= curPixelIsNullIndex writer_two_rows <= pixelStride writer_two_rows)
    by (vm_compute; split; discriminate).
  assert (Hh : hasNull writer_two_rows = true) by (vm_compute; reflexivity).
  split; [exact BitPack_contract|]. split; [exact Hwf|]. split; [exact Hlen|].
  split; [exact Hn|]. split; [exact Hh|].
  exact (proj2 (proj2 (newPixel_bitmap_bytes writer_two_rows BitPack_contract Hwf Hlen Hn)
                  Hh)).
Defined.

Lemma flush_pending_pixel_witness :
  0 < curPixelEleIndex writer_pending
  /\ flush 4 writer_pending = flush 4 (newPixel writer_pending).
Proof.
  assert (Hc : 0 < curPixelEleIndex writer_pending) by (vm_compute; reflexivity).
  split; [exact Hc|].
  exact (proj1 (proj1 (flush_pending_pixel 4 writer_pending) Hc)).
Defined.

Lemma reset_idempotent_witness :
  reset (reset writer_pending) = reset writer_pending.
Proof.
  exact (proj2 (proj2 (proj2 (proj2 (proj2 (reset_idempotent writer_pending)))))).
Defined.

Lemma chunk_recorder_hasNull_witness :
  (hasNull writer_two_rows = true
   /\ StatsRecorder.hasNull (columnChunkStatRecorder (newPixel writer_two_rows)) = true)
  /\ (hasNull (flush 4 writer_pending) = false
      /\ existsb writesNull rows_of_chunk1 = false
      /\ StatsRecorder.hasNull
           (columnChunkStatRecorder (run 4 rows_of_chunk1 (reset (flush 4 writer_pending))))
         = false).
Proof.
  assert (Hh : hasNull writer_two_rows = true) by (vm_compute; reflexivity).
  assert (Hf : hasNull (flush 4 writer_pending) = false) by (vm_compute; reflexivity).
  assert (Hn : existsb writesNull rows_of_chunk1 = false) by (vm_compute; reflexivity).
  split.
  - split; [exact Hh|].
    exact (proj1 (chunk_recorder_hasNull 4) writer_two_rows Hh).
  - split; [exact Hf|]. split; [exact Hn|].
    exact (proj1 (proj2 (proj2 (proj2 (proj2 (chunk_recorder_hasNull 4)))))
             (flush 4 writer_pending) rows_of_chunk1 Hf Hn).
Defined.

Lemma chunk_content_observers_witness :
  ByteBuffer.wf (outputStream writer_pending)
  /\ Z.of_nat (ByteBuffer.getWritePos (outputStream writer_pending)
               - ByteBuffer.getReadPos (outputStream writer_pending)) <= INT_MAX
  /\ snd (getColumnChunkContent writer_pending) = writer_pending
  /\ snd (getColumnChunkSize writer_pending) = writer_pending
  /\ fst (getColumnChunkSize writer_pending)
     = Z.of_nat (length (fst (getColumnChunkContent writer_pending))).
Proof.
  assert (Hmax : Z.of_nat (ByteBuffer.getWritePos (outputStream writer_pending)
                           - ByteBuffer.getReadPos (outputStream writer_pending))
                 <= INT_MAX)
    by (apply Z.leb_le; vm_compute; reflexivity).
  split; [exact wf_writer_pending|]. split; [exact Hmax|].
  destruct (chunk_content_observers writer_pending wf_writer_pending Hmax)
    as (H1 & H2 & _ & _ & H5 & _).
  split; [exact H1|]. split; [exact H2 | exact H5].
Defined.

(* ===================================================================== *)
(** ** What no call changes, and what only [reset] changes *)
(* ===================================================================== *)

Section Configuration.

Context {R S : Type} `{!StatsRecorder.Ops R S} `{!BitUtils.Packer}.
Variable ISNULL_ALIGNMENT : Z.
Implicit Types w : ColumnWriter R S.

Local Abbreviation step' := (step ISNULL_ALIGNMENT).
Local Abbreviation run' := (run ISNULL_ALIGNMENT).

Lemma run_app ops1 : forall ops2 w,
  run' (ops1 ++ ops2) w = run' ops2 (run' ops1 w).
Proof.
  induction ops1 as [|o ops1 IH]; intros ops2 w; cbn [run app]; [reflexivity|].
  apply IH.
Qed.

Lemma configuration_newPixel w : configuration (newPixel w) = configuration w.
Proof. unfold newPixel, configuration. writer_fields. destruct hasNull0; reflexivity. Qed.

Lemma configuration_flush w :
  configuration (flush ISNULL_ALIGNMENT w) = configuration (flushed_pixel w).
Proof.
  unfold flush, flushed_pixel, configuration.
  generalize (if curPixelEleIndex w >? 0 then newPixel w else w).
  writer_fields.
  match goal with |- context [if ?c then _ else _] => destruct c end; reflexivity.
Qed.

Lemma configuration_step o w : configuration (step' o w) = configuration w.
Proof.
  destruct o; cbn [step]; try reflexivity.
  - unfold writeRow, configuration. writer_fields. reflexivity.
  - apply configuration_newPixel.
  - rewrite configuration_flush.
    destruct (flushed_pixel_cases w) as [[_ ->]|[_ ->]];
      [apply configuration_newPixel | reflexivity].
  - unfold reset, configuration. writer_fields. reflexivity.
  - unfold close, configuration. writer_fields. reflexivity.
Qed.

Lemma indexFlags_step o w :
  isReset o = false -> indexFlags (step' o w) = indexFlags w.
Proof.
  intros Ho. unfold indexFlags.
  destruct o; cbn [step isReset] in *; try discriminate; try reflexivity.
  - destruct (writeRow_frame value null w) as (-> & _). reflexivity.
  - destruct (newPixel_index_flags w) as (_ & -> & -> & ->). reflexivity.
  - destruct (flush_index_flags ISNULL_ALIGNMENT w) as (-> & -> & ->).
    destruct (flushed_pixel_cases w) as [[_ ->]|[_ ->]]; [|reflexivity].
    destruct (newPixel_index_flags w) as (_ & -> & -> & ->). reflexivity.
  - destruct (close_frame w) as (-> & _). reflexivity.
Qed.

Lemma indexFlags_reset w : indexFlags (reset w) = (false, false, 0).
Proof. unfold indexFlags. destruct (reset_fields w) as (-> & _). reflexivity. Qed.

Lemma indexFlags_default_step o w :
  indexFlags w = (false, false, 0) -> indexFlags (step' o w) = (false, false, 0).
Proof.
  intros Hw. destruct (isReset o) eqn:Ho.
  - destruct o; try discriminate. apply indexFlags_reset.
  - rewrite indexFlags_step by exact Ho. exact Hw.
Qed.

(** X1. No call assigns the stride, the encoding level, the byte order or
    the padding policy of a writer: they are those of the constructor after
    every sequence of calls.  The three flags the constructor wrote into the
    index (little-endian or not, padding policy, alignment) stay in the
    index through every sequence of calls without a [reset]. *)
Theorem configuration_fixed opt ops :
  let w0 := ColumnWriter_new ISNULL_ALIGNMENT opt in
  configuration (run' ops w0)
  = (getPixelsStride opt, getEncodingLevel opt, getByteOrder opt, false)
  /\ (existsb isReset ops = false ->
      indexFlags (run' ops w0)
      = (ByteOrder_eqb (getByteOrder opt) PIXELS_LITTLE_ENDIAN, false, ISNULL_ALIGNMENT)).
Proof.
  intros w0.
  change (getPixelsStride opt, getEncodingLevel opt, getByteOrder opt, false)
    with (configuration w0).
  change (ByteOrder_eqb (getByteOrder opt) PIXELS_LITTLE_ENDIAN, false, ISNULL_ALIGNMENT)
    with (indexFlags w0).
  generalize w0. clear w0.
  induction ops as [|o ops IH]; intros w; cbn [run existsb].
  - split; reflexivity.
  - destruct (IH (step' o w)) as [Hc Hf]. split.
    + rewrite Hc. apply configuration_step.
    + intros Hr. apply orb_false_iff in Hr as [Ho Hops].
      rewrite (Hf Hops). apply indexFlags_step, Ho.
Qed.

(** X2. Once [reset] was called, the index reads big-endian, no padding
    and alignment 0 whatever is called afterwards, while the byte order the
    writer packs with is still the one it was built with: nothing but the
    constructor writes the three flags. *)
Theorem index_flags_after_reset ops1 ops2 w :
  let w' := run' (ops1 ++ OpReset :: ops2) w in
  indexFlags w' = (false, false, 0) /\ byteOrder w' = byteOrder w.
Proof.
  intros w'. split.
  - subst w'. rewrite run_app. cbn [run step].
    assert (Hr : indexFlags (reset (run' ops1 w)) = (false, false, 0))
      by apply indexFlags_reset.
    revert Hr. generalize (reset (run' ops1 w)).
    induction ops2 as [|o ops2 IH]; intros v Hv; cbn [run]; [exact Hv|].
    apply IH, indexFlags_default_step, Hv.
  - subst w'. generalize (ops1 ++ OpReset :: ops2). intros ops. revert w.
    induction ops as [|o ops IH]; intros w; cbn [run]; [reflexivity|].
    rewrite IH.
    pose proof (configuration_step o w) as Hc. unfold configuration in Hc.
    congruence.
Qed.

Lemma synced_step o w :
  lastPixelPosition w = curPixelPosition w ->
  lastPixelPosition (step' o w) = curPixelPosition (step' o w).
Proof.
  intros Hw.
  assert (Hnp : lastPixelPosition (newPixel w) = curPixelPosition (newPixel w))
    by (rewrite newPixel_lastPixelPosition, newPixel_curPixelPosition; reflexivity).
  destruct o; cbn [step]; try exact Hw.
  - unfold writeRow. writer_fields. exact Hw.
  - exact Hnp.
  - destruct (flush_frame ISNULL_ALIGNMENT w) as (_ & _ & -> & -> & _).
    destruct (flushed_pixel_cases w) as [[_ ->]|[_ ->]]; assumption.
  - destruct (reset_fields w) as (_ & -> & -> & _). reflexivity.
  - unfold close. writer_fields. exact Hw.
Qed.

(** X3. Between calls [lastPixelPosition] and [curPixelPosition] hold the
    same offset: they differ only inside [newPixel], between the two
    assignments.  This holds after every sequence of calls on a new
    writer. *)
Theorem pixel_positions_synced opt ops :
  let w := run' ops (ColumnWriter_new ISNULL_ALIGNMENT opt) in
  lastPixelPosition w = curPixelPosition w.
Proof.
  cbn zeta.
  assert (Hnew : lastPixelPosition (ColumnWriter_new ISNULL_ALIGNMENT opt)
                 = curPixelPosition (ColumnWriter_new ISNULL_ALIGNMENT opt))
    by reflexivity.
  revert Hnew. generalize (ColumnWriter_new ISNULL_ALIGNMENT opt).
  induction ops as [|o ops IH]; intros w Hw; cbn [run]; [exact Hw|].
  apply IH, synced_step, Hw.
Qed.

End Configuration.

(* ===================================================================== *)
(** ** The positions of one chunk *)
(* ===================================================================== *)

Lemma StronglySorted_snoc {A : Type} (le : A -> A -> Prop) (l : list A) (x : A) :
  StronglySorted le l -> Forall (fun y => le y x) l -> StronglySorted le (l ++ [x]).
Proof.
  induction 1 as [|a l Hs IH Ha]; intros Hx; cbn [app].
  - constructor; constructor.
  - apply Forall_cons in Hx as [Hax Hx].
    constructor; [apply IH, Hx|].
    apply Forall_app. split; [exact Ha | constructor; [exact Hax | constructor]].
Qed.

Section Positions.

Context {R S : Type} `{!StatsRecorder.Ops R S} `{!BitUtils.Packer}.
Variable ISNULL_ALIGNMENT : Z.
Implicit Types w : ColumnWriter R S.

Local Abbreviation step' := (step ISNULL_ALIGNMENT).
Local Abbreviation run' := (run ISNULL_ALIGNMENT).
Local Abbreviation flush' := (flush ISNULL_ALIGNMENT).

Lemma writePos_putBytes (b : ByteBuffer.t) (src : list Z) (len : nat) :
  (ByteBuffer.wpos b <= ByteBuffer.wpos (ByteBuffer.putBytes b src len))%nat.
Proof. destruct b. cbn. lia. Qed.

Lemma writePos_flush w :
  (ByteBuffer.wpos (outputStream w) <= ByteBuffer.wpos (outputStream (flush' w)))%nat.
Proof.
  destruct (flush_effect ISNULL_ALIGNMENT w) as [_ ->].
  rewrite flushed_pixel_outputStream.
  etransitivity; [|apply writePos_putBytes].
  match goal with |- context [if ?c then _ else _] => destruct c end;
    [apply writePos_putBytes | reflexivity].
Qed.

Lemma writePos_step o w :
  inChunk o = true ->
  (ByteBuffer.wpos (outputStream w) <= ByteBuffer.wpos (outputStream (step' o w)))%nat.
Proof.
  intros Ho. destruct o; cbn [step inChunk] in *; try discriminate; try reflexivity.
  - unfold writeRow. writer_fields. apply writePos_putBytes.
  - rewrite newPixel_outputStream. reflexivity.
  - apply writePos_flush.
Qed.

Lemma writePos_run ops : forall w,
  forallb inChunk ops = true ->
  (ByteBuffer.wpos (outputStream w) <= ByteBuffer.wpos (outputStream (run' ops w)))%nat.
Proof.
  induction ops as [|o ops IH]; intros w Hops; cbn [run]; [reflexivity|].
  cbn [forallb] in Hops. apply andb_true_iff in Hops as [Ho Hops].
  etransitivity; [apply (writePos_step o w Ho) | apply IH, Hops].
Qed.

Lemma ordered_newPixel w :
  Z.of_nat (ByteBuffer.wpos (outputStream w)) <= INT_MAX ->
  ordered w -> ordered (newPixel w).
Proof.
  unfold ordered. intros Hmax (Hs & Hf & Hl).
  rewrite newPixel_pixelpositions, newPixel_lastPixelPosition, newPixel_outputStream.
  unfold boundaryOffset, ByteBuffer.getWritePos in *.
  rewrite static_cast_int_id by (unfold INT_MIN, INT_MAX in *; lia).
  split; [|split; [|lia]].
  - apply StronglySorted_snoc; [exact Hs|].
    eapply Forall_impl; [exact Hf|]. cbn. intros p Hp. lia.
  - apply Forall_app. split.
    + eapply Forall_impl; [exact Hf|]. cbn. intros p Hp. lia.
    + constructor; [lia | constructor].
Qed.

Lemma ordered_grow w w' :
  pixelpositions (columnChunkIndex w') = pixelpositions (columnChunkIndex w) ->
  lastPixelPosition w' = lastPixelPosition w ->
  (ByteBuffer.wpos (outputStream w) <= ByteBuffer.wpos (outputStream w'))%nat ->
  ordered w -> ordered w'.
Proof.
  unfold ordered, ByteBuffer.getWritePos. intros -> -> Hw (Hs & Hf & Hl).
  split; [exact Hs|]. split; [exact Hf | lia].
Qed.

Lemma ordered_step o w :
  inChunk o = true ->
  Z.of_nat (ByteBuffer.wpos (outputStream (step' o w))) <= INT_MAX ->
  ordered w -> ordered (step' o w).
Proof.
  intros Ho Hmax Hw.
  pose proof (writePos_step o w Ho) as Hmono.
  destruct o; cbn [step inChunk] in *; try discriminate; try exact Hw.
  - destruct (writeRow_frame value null w) as (Hi & Hp & _).
    apply (ordered_grow w); [rewrite Hi; reflexivity | exact Hp | exact Hmono | exact Hw].
  - apply ordered_newPixel; [lia | exact Hw].
  - destruct (flush_frame ISNULL_ALIGNMENT w) as (Hi & _ & Hp & _).
    apply (ordered_grow (flushed_pixel w)); [exact Hi | exact Hp | |].
    + rewrite flushed_pixel_outputStream. exact Hmono.
    + destruct (flushed_pixel_cases w) as [[_ ->]|[_ ->]]; [|exact Hw].
      apply ordered_newPixel; [lia | exact Hw].
Qed.

(** X4. While one chunk is written (no [reset], no [close]) and its value
    buffer stays within [int], the pixel positions in the index never go
    down: they are sorted, none is negative, none is past the pending
    [lastPixelPosition], and that one is not past the write offset of the
    value buffer. *)
Theorem pixel_positions_ordered opt ops :
  forallb inChunk ops = true ->
  Z.of_nat (ByteBuffer.getWritePos
              (outputStream (run' ops (ColumnWriter_new ISNULL_ALIGNMENT opt))))
  <= INT_MAX ->
  let w := run' ops (ColumnWriter_new ISNULL_ALIGNMENT opt) in
  StronglySorted Z.le (pixelpositions (columnChunkIndex w))
  /\ Forall (fun p => 0 <= p <= lastPixelPosition w) (pixelpositions (columnChunkIndex w))
  /\ 0 <= lastPixelPosition w <= Z.of_nat (ByteBuffer.getWritePos (outputStream w)).
Proof.
  assert (Hnew : ordered (ColumnWriter_new ISNULL_ALIGNMENT opt)).
  { unfold ordered. cbn. split; [constructor|]. split; [constructor | lia]. }
  revert Hnew. generalize (ColumnWriter_new ISNULL_ALIGNMENT opt).
  unfold ByteBuffer.getWritePos.
  induction ops as [|o ops IH]; intros w Hw Hops Hmax; cbn [run] in *.
  - exact Hw.
  - cbn [forallb] in Hops. apply andb_true_iff in Hops as [Ho Hops].
    apply IH; [|exact Hops | exact Hmax].
    apply ordered_step; [exact Ho | | exact Hw].
    pose proof (writePos_run ops (step' o w) Hops). lia.
Qed.

(** The write offset [flush] leaves: right after the bitmap bytes. *)
Lemma flush_writePos w :
  ByteBuffer.wf (outputStream w) ->
  0 <= ISNULL_ALIGNMENT ->
  Z.of_nat (ByteBuffer.getWritePos (outputStream w)) + ISNULL_ALIGNMENT <= INT_MAX ->
  Z.of_nat (ByteBuffer.wpos (outputStream (flush' w)))
  = isnulloffset (columnChunkIndex (flush' w))
    + Z.of_nat (length (ByteBuffer.view (isNullStream (flushed_pixel w)))).
Proof.
  intros Hwf HA Hmax.
  destruct (flush_layout ISNULL_ALIGNMENT w Hwf HA Hmax) as (Hoff & Hview & Hwf' & Hr).
  pose proof (paddingFor_range ISNULL_ALIGNMENT
                (Z.of_nat (ByteBuffer.getWritePos (outputStream w))) HA) as Hp.
  pose proof (view_length _ Hwf) as Hlv.
  pose proof (view_length _ Hwf') as Hlv'.
  rewrite Hview, !length_app, length_replicate, Hr in Hlv'.
  destruct Hwf as [Hrw Hwb]. destruct Hwf' as [Hrw' Hwb'].
  unfold ByteBuffer.getWritePos in *. rewrite Hoff. lia.
Qed.

Lemma flush_no_pending w : curPixelEleIndex (flush' w) <= 0.
Proof.
  destruct (flush_frame ISNULL_ALIGNMENT w) as (_ & _ & _ & _ & _ & _ & _ & _ & ->).
  destruct (flushed_pixel_cases w) as [[_ ->]|[Hle ->]]; [|exact Hle].
  destruct (newPixel_counters w) as (-> & _). lia.
Qed.

(** X5. [flush] is not idempotent.  A second [flush] right after the first
    closes no pixel and leaves the index sequences and the null-bitmap buffer
    alone, but pads the value buffer again and appends the same bitmap bytes
    a second time; [isNullOffset] moves to the second copy, at least the
    length of the bitmap past where the first [flush] had put it. *)
Theorem flush_twice w :
  ByteBuffer.wf (outputStream w) ->
  0 <= ISNULL_ALIGNMENT ->
  Z.of_nat (ByteBuffer.getWritePos (outputStream (flush' w))) + ISNULL_ALIGNMENT
  <= INT_MAX ->
  let w1 := flush' w in
  let w2 := flush' w1 in
  let bitmap := ByteBuffer.view (isNullStream w1) in
  pixelpositions (columnChunkIndex w2) = pixelpositions (columnChunkIndex w1)
  /\ pixelstatistics (columnChunkIndex w2) = pixelstatistics (columnChunkIndex w1)
  /\ isNullStream w2 = isNullStream w1
  /\ (exists pad : nat,
        Z.of_nat pad <= Z.max 0 (ISNULL_ALIGNMENT - 1)
        /\ ByteBuffer.view (outputStream w2)
           = ByteBuffer.view (outputStream w1) ++ replicate pad 0 ++ bitmap)
  /\ isnulloffset (columnChunkIndex w1) + Z.of_nat (length bitmap)
     <= isnulloffset (columnChunkIndex w2).
Proof.
  intros Hwf HA Hmax. cbn zeta.
  set (w1 := flush' w) in *. set (w2 := flush' w1).
  set (bitmap := ByteBuffer.view (isNullStream w1)).
  pose proof (writePos_flush w) as Hmono. fold w1 in Hmono.
  unfold ByteBuffer.getWritePos in *.
  assert (Hmax0 : Z.of_nat (ByteBuffer.getWritePos (outputStream w)) + ISNULL_ALIGNMENT
                  <= INT_MAX) by (unfold ByteBuffer.getWritePos; lia).
  destruct (flush_layout ISNULL_ALIGNMENT w Hwf HA Hmax0) as (_ & _ & Hwf1 & _).
  fold w1 in Hwf1.
  pose proof (flush_writePos w Hwf HA Hmax0) as Hend. fold w1 in Hend.
  pose proof (flush_no_pending w) as Hnp. fold w1 in Hnp.
  assert (Hw1 : flushed_pixel w1 = w1).
  { destruct (flushed_pixel_cases w1) as [[Hlt _]|[_ E]]; [lia | exact E]. }
  destruct (flush_frame ISNULL_ALIGNMENT w) as (_ & _ & _ & _ & _ & _ & Hn & _).
  fold w1 in Hn.
  destruct (flush_frame ISNULL_ALIGNMENT w1) as (Hp2 & Hs2 & _ & _ & _ & _ & Hn2 & _).
  fold w2 in Hp2, Hs2, Hn2. rewrite Hw1 in Hp2, Hs2, Hn2.
  destruct (flush_layout ISNULL_ALIGNMENT w1 Hwf1 HA Hmax) as (Hoff2 & Hview2 & _).
  fold w2 in Hoff2, Hview2. rewrite Hw1 in Hview2. fold bitmap in Hview2.
  pose proof (paddingFor_range ISNULL_ALIGNMENT
                (Z.of_nat (ByteBuffer.getWritePos (outputStream w1))) HA) as Hpad.
  split; [exact Hp2|]. split; [exact Hs2|]. split; [exact Hn2|]. split.
  - exists (Z.to_nat (paddingFor ISNULL_ALIGNMENT
                        (Z.of_nat (ByteBuffer.getWritePos (outputStream w1))))).
    split; [lia | exact Hview2].
  - subst bitmap. rewrite Hn, Hoff2. unfold ByteBuffer.getWritePos in *. lia.
Qed.

Lemma paddingFor_least (offset m : Z) :
  0 < ISNULL_ALIGNMENT ->
  offset <= m -> m mod ISNULL_ALIGNMENT = 0 ->
  offset + paddingFor ISNULL_ALIGNMENT offset <= m.
Proof.
  intros HA Hm Hdiv. unfold paddingFor.
  destruct (Z.eqb_spec ISNULL_ALIGNMENT 0); [lia|].
  destruct (Z.eqb_spec (offset mod ISNULL_ALIGNMENT) 0) as [E|E]; [lia|].
  pose proof (Z.div_mod offset ISNULL_ALIGNMENT ltac:(lia)) as Ho.
  pose proof (Z.div_mod m ISNULL_ALIGNMENT ltac:(lia)) as Hmm.
  pose proof (Z.mod_pos_bound offset ISNULL_ALIGNMENT HA) as Hb.
  rewrite Hdiv in Hmm.
  assert (offset / ISNULL_ALIGNMENT < m / ISNULL_ALIGNMENT) by nia.
  nia.
Qed.

(** X6. Under an alignment greater than zero, the [isNullOffset] that
    [flush] records is the write offset rounded up to the alignment: it is
    not below the raw write offset, and no multiple of the alignment lies
    between the two. *)
Theorem flush_isNullOffset_least w (m : Z) :
  ByteBuffer.wf (outputStream w) ->
  0 < ISNULL_ALIGNMENT ->
  Z.of_nat (ByteBuffer.getWritePos (outputStream w)) + ISNULL_ALIGNMENT <= INT_MAX ->
  Z.of_nat (ByteBuffer.getWritePos (outputStream w)) <= m ->
  m mod ISNULL_ALIGNMENT = 0 ->
  Z.of_nat (ByteBuffer.getWritePos (outputStream w))
  <= isnulloffset (columnChunkIndex (flush' w)) <= m.
Proof.
  intros Hwf HA Hmax Hm Hdiv.
  destruct (flush_layout ISNULL_ALIGNMENT w Hwf ltac:(lia) Hmax) as (-> & _).
  pose proof (paddingFor_range ISNULL_ALIGNMENT
                (Z.of_nat (ByteBuffer.getWritePos (outputStream w))) ltac:(lia)).
  pose proof (paddingFor_least _ m HA Hm Hdiv). lia.
Qed.

End Positions.

(* ===================================================================== *)
(** ** Teardown, empty pixels and reused storage *)
(* ===================================================================== *)

Lemma sameBytes_view (b1 b2 : ByteBuffer.t) :
  sameBytes b1 b2 -> ByteBuffer.view b1 = ByteBuffer.view b2.
Proof.
  destruct b1 as [buf1 r1 w1], b2 as [buf2 r2 w2].
  unfold sameBytes, ByteBuffer.view, ByteBuffer.wf. cbn.
  intros (-> & -> & Ht & [Hr1 _] & _).
  rewrite !take_drop_commute.
  replace (r2 + (w2 - r2))%nat with w2 by lia.
  rewrite Ht. reflexivity.
Qed.

Lemma sameBytes_putBytes (b1 b2 : ByteBuffer.t) (src1 src2 : list Z) (len1 len2 : nat) :
  sameBytes b1 b2 ->
  take len1 src1 = take len2 src2 ->
  sameBytes (ByteBuffer.putBytes b1 src1 len1) (ByteBuffer.putBytes b2 src2 len2).
Proof.
  intros (Hr & Hw & Ht & Hwf1 & Hwf2) Hsrc.
  split; [|split; [|split; [|split; apply wf_putBytes; assumption]]].
  - destruct b1, b2. exact Hr.
  - destruct b1, b2. cbn in *. rewrite Hsrc, Hw. reflexivity.
  - destruct b1 as [buf1 r1 w1], b2 as [buf2 r2 w2].
    unfold ByteBuffer.wf in *. cbn in *. subst.
    rewrite Hsrc.
    set (data := take len2 src2).
    assert (Hcut : forall buf : list Z,
               (w2 <= length buf)%nat ->
               take (w2 + length data)
                    (take w2 buf ++ data ++ drop (w2 + length data) buf)
               = take w2 buf ++ data).
    { intros buf Hb. rewrite app_assoc. apply take_app_length'.
      rewrite length_app, length_take. lia. }
    rewrite !Hcut by lia. rewrite Ht. reflexivity.
Qed.

Lemma sameBytes_rewound (b : ByteBuffer.t) :
  sameBytes (ByteBuffer.resetPosition b) (ByteBuffer.resetPosition (ByteBuffer.clear b)).
Proof. unfold sameBytes, ByteBuffer.wf. cbn. repeat split; lia. Qed.

Section Teardown.

Context {R S : Type} `{!StatsRecorder.Ops R S} `{!BitUtils.Packer}.
Variable ISNULL_ALIGNMENT : Z.
Implicit Types w : ColumnWriter R S.

Local Abbreviation step' := (step ISNULL_ALIGNMENT).
Local Abbreviation run' := (run ISNULL_ALIGNMENT).
Local Abbreviation flush' := (flush ISNULL_ALIGNMENT).

(** X7. [close] throws the chunk away and nothing else: whatever was
    written, the content is empty and the size 0 afterwards, the index and
    the chunk recorder are kept, and a second [close] changes nothing.  A
    [flush] after [close], with no pixel pending, gives an empty chunk with
    [isNullOffset] 0 under every alignment. *)
Theorem close_discards_content w :
  fst (getColumnChunkContent (close w)) = []
  /\ fst (getColumnChunkSize (close w)) = 0
  /\ columnChunkIndex (close w) = columnChunkIndex w
  /\ columnChunkStatRecorder (close w) = columnChunkStatRecorder w
  /\ close (close w) = close w
  /\ (curPixelEleIndex w <= 0 ->
      fst (getColumnChunkContent (flush' (close w))) = []
      /\ isnulloffset (columnChunkIndex (flush' (close w))) = 0).
Proof.
  unfold close, flush, getColumnChunkContent, getColumnChunkSize. writer_fields.
  repeat split.
  - destruct (Z.gtb_spec curPixelEleIndex0 0); [lia|]. cbn.
    rewrite andb_false_r. reflexivity.
  - destruct (Z.gtb_spec curPixelEleIndex0 0); [lia|]. cbn.
    rewrite andb_false_r. reflexivity.
Qed.

(** X10. [newPixel] does not look at the row counter.  Called again right
    after a pixel was closed, it appends an index entry for a pixel without
    rows: its position is the offset the first call recorded, its statistics
    are those of the recorder as [reset] left it, and no byte goes into
    either buffer. *)
Theorem newPixel_empty_pixel w :
  let w1 := newPixel w in
  let w2 := newPixel w1 in
  pixelpositions (columnChunkIndex w2)
  = pixelpositions (columnChunkIndex w)
    ++ [lastPixelPosition w;
        static_cast_int (Z.of_nat (ByteBuffer.getWritePos (outputStream w)))]
  /\ pixelstatistics (columnChunkIndex w2)
     = pixelstatistics (columnChunkIndex w1)
       ++ [mkPixelStatistic
             (StatsRecorder.serialize (StatsRecorder.reset (closingRecorder w)))]
  /\ lastPixelPosition w2 = lastPixelPosition w1
  /\ outputStream w2 = outputStream w
  /\ isNullStream w2 = isNullStream w1.
Proof.
  intros w1 w2. subst w2 w1.
  destruct (newPixel_counters w) as (_ & _ & _ & Hh).
  rewrite !newPixel_pixelpositions, !newPixel_lastPixelPosition.
  rewrite (newPixel_pixelstatistics (newPixel w)).
  rewrite (newPixel_isNullStream (newPixel w)), !newPixel_outputStream.
  unfold closingRecorder at 1. rewrite Hh, newPixel_pixelStatRecorder.
  unfold boundaryOffset. rewrite newPixel_outputStream, <- app_assoc.
  repeat split.
Qed.

Lemma sameChunk_newPixel w1 w2 : sameChunk w1 w2 -> sameChunk (newPixel w1) (newPixel w2).
Proof.
  unfold sameChunk, withoutBuffers, newPixel. writer_fields.
  destruct H1 as (He & Ho & Hn). injection He as -> -> -> -> -> -> -> -> -> -> -> -> -> -> ->.
  pose proof Ho as (_ & Hw & _).
  match goal with |- context [if ?c then _ else _] => destruct c end;
    cbn; unfold ByteBuffer.getWritePos; rewrite Hw;
    (split; [reflexivity|]); (split; [exact Ho|]).
  - apply sameBytes_putBytes; [exact Hn | reflexivity].
  - exact Hn.
Qed.

Lemma sameChunk_flush w1 w2 : sameChunk w1 w2 -> sameChunk (flush' w1) (flush' w2).
Proof.
  intros Hs.
  assert (Hp : sameChunk (flushed_pixel w1) (flushed_pixel w2)).
  { unfold flushed_pixel.
    assert (Hc : curPixelEleIndex w1 = curPixelEleIndex w2).
    { destruct Hs as (He & _). apply (f_equal curPixelEleIndex) in He.
      revert He. unfold withoutBuffers. clear. writer_fields. exact He. }
    rewrite Hc. destruct (curPixelEleIndex w2 >? 0);
      [apply sameChunk_newPixel|]; exact Hs. }
  revert Hp. unfold flush. fold (flushed_pixel w1) (flushed_pixel w2).
  generalize (flushed_pixel w1) (flushed_pixel w2). clear.
  unfold sameChunk, withoutBuffers. writer_fields.
  destruct Hp as (He & Ho & Hn). injection He as -> -> -> -> -> -> -> -> -> -> -> -> -> -> ->.
  pose proof Ho as (_ & Hw & _). pose proof Hn as (Hnr & Hnw & _).
  pose proof (sameBytes_view _ _ Hn) as Hv. unfold ByteBuffer.view in Hv.
  unfold ByteBuffer.getWritePos, ByteBuffer.getReadPos, ByteBuffer.getPointer.
  rewrite Hw.
  match goal with |- context [if ?c then _ else _] => destruct c end; cbn;
    (split; [reflexivity|]); (split; [|exact Hn]).
  - apply sameBytes_putBytes; [|exact Hv].
    apply sameBytes_putBytes; [exact Ho | reflexivity].
  - apply sameBytes_putBytes; [exact Ho | exact Hv].
Qed.

Lemma sameChunk_step o w1 w2 : sameChunk w1 w2 -> sameChunk (step' o w1) (step' o w2).
Proof.
  intros Hs. destruct o; cbn [step]; try exact Hs.
  - revert Hs. unfold sameChunk, withoutBuffers, writeRow. writer_fields.
    destruct Hs as (He & Ho & Hn).
    injection He as -> -> -> -> -> -> -> -> -> -> -> -> -> -> ->.
    split; [reflexivity|]. split; [|exact Hn].
    apply sameBytes_putBytes; [exact Ho | reflexivity].
  - apply sameChunk_newPixel, Hs.
  - apply sameChunk_flush, Hs.
  - revert Hs. unfold sameChunk, withoutBuffers, reset. writer_fields.
    destruct Hs as (He & Ho & Hn).
    injection He as -> -> -> -> -> -> -> -> -> -> -> -> -> -> ->.
    destruct Ho as (_ & _ & _ & [_ Ho1] & [_ Ho2]).
    destruct Hn as (_ & _ & _ & [_ Hn1] & [_ Hn2]).
    unfold sameBytes, ByteBuffer.wf. cbn. repeat split; lia.
  - revert Hs. unfold sameChunk, withoutBuffers, close. writer_fields.
    destruct Hs as (He & Ho & Hn).
    injection He as -> -> -> -> -> -> -> -> -> -> -> -> -> -> ->.
    unfold sameBytes, ByteBuffer.wf. cbn. repeat split; lia.
Qed.

Lemma sameChunk_run ops : forall w1 w2,
  sameChunk w1 w2 -> sameChunk (run' ops w1) (run' ops w2).
Proof.
  induction ops as [|o ops IH]; intros w1 w2 Hs; cbn [run]; [exact Hs|].
  apply IH, sameChunk_step, Hs.
Qed.

Lemma sameChunk_observed w1 w2 :
  sameChunk w1 w2 ->
  fst (getColumnChunkContent w1) = fst (getColumnChunkContent w2)
  /\ fst (getColumnChunkSize w1) = fst (getColumnChunkSize w2)
  /\ ByteBuffer.view (isNullStream w1) = ByteBuffer.view (isNullStream w2)
  /\ columnChunkIndex w1 = columnChunkIndex w2
  /\ pixelStatRecorder w1 = pixelStatRecorder w2
  /\ columnChunkStatRecorder w1 = columnChunkStatRecorder w2.
Proof.
  intros (He & Ho & Hn).
  pose proof (sameBytes_view _ _ Ho) as Hvo.
  pose proof (sameBytes_view _ _ Hn) as Hvn.
  destruct Ho as (Hr & Hw & _).
  revert He Hvo Hvn Hr Hw.
  unfold withoutBuffers, getColumnChunkContent, getColumnChunkSize, ByteBuffer.view,
    ByteBuffer.getWritePos, ByteBuffer.getReadPos, ByteBuffer.getPointer.
  clear. writer_fields.
  injection He as -> -> -> -> -> -> -> -> -> -> -> -> -> -> ->.
  repeat split; first [assumption | rewrite Hr, Hw; reflexivity].
Qed.

(** X9. What the storage of the buffers holds past the write cursors is
    never seen.  [reset] rewinds the cursors and keeps the storage; after
    it, every sequence of calls gives the same content, size, null bitmap,
    index and recorders as on the writer whose storage [close] had released
    before the [reset]. *)
Theorem reset_reuses_storage w ops :
  let kept := run' ops (reset w) in
  let released := run' ops (reset (close w)) in
  fst (getColumnChunkContent kept) = fst (getColumnChunkContent released)
  /\ fst (getColumnChunkSize kept) = fst (getColumnChunkSize released)
  /\ ByteBuffer.view (isNullStream kept) = ByteBuffer.view (isNullStream released)
  /\ columnChunkIndex kept = columnChunkIndex released
  /\ pixelStatRecorder kept = pixelStatRecorder released
  /\ columnChunkStatRecorder kept = columnChunkStatRecorder released.
Proof.
  intros kept released. apply sameChunk_observed, sameChunk_run.
  unfold sameChunk, withoutBuffers, reset, close. writer_fields.
  split; [reflexivity|]. split; apply sameBytes_rewound.
Qed.

End Teardown.

(* ===================================================================== *)
(** ** Reading the chunk back, and [reset] on a pending pixel *)
(* ===================================================================== *)

Section Chunk.

Context {R S : Type} `{!StatsRecorder.Ops R S} `{!BitUtils.Packer}.
Variable ISNULL_ALIGNMENT : Z.
Implicit Types w : ColumnWriter R S.

Local Abbreviation step' := (step ISNULL_ALIGNMENT).
Local Abbreviation run' := (run ISNULL_ALIGNMENT).
Local Abbreviation flush' := (flush ISNULL_ALIGNMENT).

Lemma readPos_putBytes (b : ByteBuffer.t) (src : list Z) (len : nat) :
  ByteBuffer.rpos (ByteBuffer.putBytes b src len) = ByteBuffer.rpos b.
Proof. destruct b. reflexivity. Qed.

Lemma writeRow_outputStream value null w :
  outputStream (writeRow value null w)
  = ByteBuffer.putBytes (outputStream w) value (length value).
Proof. unfold writeRow. destruct w. reflexivity. Qed.

(** The writer never reads from its value buffer: the read cursor stays at
    the start, and the cursors stay in order. *)
Lemma unread_step o w : unread w -> unread (step' o w).
Proof.
  unfold unread. intros [Hr Hwf]. destruct o; cbn [step]; try (split; assumption).
  - rewrite writeRow_outputStream, readPos_putBytes.
    split; [exact Hr | apply wf_putBytes, Hwf].
  - rewrite newPixel_outputStream. split; assumption.
  - destruct (flush_effect ISNULL_ALIGNMENT w) as [_ ->].
    rewrite flushed_pixel_outputStream, readPos_putBytes.
    match goal with |- context [if ?c then _ else _] => destruct c end.
    + rewrite readPos_putBytes. split; [exact Hr|]. apply wf_putBytes, wf_putBytes, Hwf.
    + split; [exact Hr|]. apply wf_putBytes, Hwf.
  - destruct (reset_fields w) as (_ & _ & _ & _ & _ & _ & -> & _).
    unfold ByteBuffer.wf. cbn. split; [reflexivity | lia].
  - unfold close. clear. writer_fields. unfold ByteBuffer.wf. cbn.
    split; [reflexivity | lia].
Qed.

Lemma unread_run ops : forall w, unread w -> unread (run' ops w).
Proof.
  induction ops as [|o ops IH]; intros w Hw; cbn [run]; [exact Hw|].
  apply IH, unread_step, Hw.
Qed.

(** X11. A chunk can be read back from its index.  On a writer reached
    from a new one, with offsets that fit [int], [flush] leaves a content of
    [isNullOffset] bytes of values and padding followed by the null bitmap:
    cutting the content at [isNullOffset] gives the bytes of the null-bitmap
    buffer back, and the size of the chunk is [isNullOffset] plus their
    number. *)
Theorem chunk_splits_at_isNullOffset opt ops :
  0 <= ISNULL_ALIGNMENT ->
  Z.of_nat (ByteBuffer.getWritePos
              (outputStream
                 (flush' (run' ops (ColumnWriter_new ISNULL_ALIGNMENT opt)))))
  + ISNULL_ALIGNMENT <= INT_MAX ->
  let w := flush' (run' ops (ColumnWriter_new ISNULL_ALIGNMENT opt)) in
  let content := fst (getColumnChunkContent w) in
  let isNullOffset := isnulloffset (columnChunkIndex w) in
  let bitmap := ByteBuffer.view (isNullStream w) in
  0 <= isNullOffset
  /\ drop (Z.to_nat isNullOffset) content = bitmap
  /\ content = take (Z.to_nat isNullOffset) content ++ bitmap
  /\ fst (getColumnChunkSize w) = isNullOffset + Z.of_nat (length bitmap).
Proof.
  intros HA Hmax'.
  assert (Hu : unread (run' ops (ColumnWriter_new ISNULL_ALIGNMENT opt))).
  { apply unread_run. split; [reflexivity | apply wf_empty]. }
  revert Hmax' Hu. generalize (run' ops (ColumnWriter_new ISNULL_ALIGNMENT opt)).
  intros v Hmax' [Hr Hwf]. cbn zeta.
  set (w := flush' v) in *.
  pose proof (writePos_flush ISNULL_ALIGNMENT v) as Hmono. fold w in Hmono.
  assert (Hmax : Z.of_nat (ByteBuffer.getWritePos (outputStream v)) + ISNULL_ALIGNMENT
                 <= INT_MAX) by (unfold ByteBuffer.getWritePos in *; lia).
  destruct (flush_layout ISNULL_ALIGNMENT v Hwf HA Hmax) as (Hoff & Hview & Hwf' & Hr').
  pose proof (flush_writePos ISNULL_ALIGNMENT v Hwf HA Hmax) as Hend.
  destruct (flush_frame ISNULL_ALIGNMENT v) as (_ & _ & _ & _ & _ & _ & Hn & _).
  fold w in Hoff, Hview, Hwf', Hr', Hend, Hn. rewrite <- Hn in Hview, Hend.
  pose proof (paddingFor_range ISNULL_ALIGNMENT
                (Z.of_nat (ByteBuffer.getWritePos (outputStream v))) HA) as Hp.
  pose proof (view_length _ Hwf) as Hlv.
  change (fst (getColumnChunkContent w)) with (ByteBuffer.view (outputStream w)).
  unfold ByteBuffer.getWritePos in *.
  assert (Hcut : drop (Z.to_nat (isnulloffset (columnChunkIndex w)))
                      (ByteBuffer.view (outputStream w))
                 = ByteBuffer.view (isNullStream w)).
  { rewrite Hview, app_assoc. apply drop_app_length'.
    rewrite length_app, length_replicate, Hlv, Hoff, Hr. lia. }
  split; [lia|]. split; [exact Hcut|]. split.
  - rewrite <- Hcut. symmetry. apply take_drop.
  - unfold getColumnChunkSize. cbn [fst].
    unfold ByteBuffer.getWritePos, ByteBuffer.getReadPos.
    rewrite Hr', Hr, <- Hend.
    rewrite static_cast_int_id; unfold INT_MIN, INT_MAX in *; lia.
Qed.

(** X12. [reset] does not touch the row counters, [hasNull] or the flags
    in [isNull].  Called on a writer with a pixel pending, it leaves that
    pixel pending: the next [flush] closes it, and the new chunk starts with
    an index entry at position 0 for rows that are no longer in the value
    buffer. *)
Theorem reset_keeps_pending_pixel w :
  (curPixelEleIndex (reset w) = curPixelEleIndex w
   /\ curPixelVectorIndex (reset w) = curPixelVectorIndex w
   /\ curPixelIsNullIndex (reset w) = curPixelIsNullIndex w
   /\ hasNull (reset w) = hasNull w
   /\ isNull (reset w) = isNull w)
  /\ (0 < curPixelEleIndex w ->
      pixelpositions (columnChunkIndex (flush' (reset w))) = [0]
      /\ pixelstatistics (columnChunkIndex (flush' (reset w)))
         = [mkPixelStatistic (StatsRecorder.serialize (closingRecorder (reset w)))]
      /\ ByteBuffer.view (isNullStream (flush' (reset w)))
         = if hasNull w
           then BitUtils.bitWiseCompact (isNull w) (curPixelIsNullIndex w) (byteOrder w)
           else []).
Proof.
  assert (Hk : curPixelEleIndex (reset w) = curPixelEleIndex w
               /\ curPixelVectorIndex (reset w) = curPixelVectorIndex w
               /\ curPixelIsNullIndex (reset w) = curPixelIsNullIndex w
               /\ hasNull (reset w) = hasNull w
               /\ isNull (reset w) = isNull w
               /\ byteOrder (reset w) = byteOrder w)
    by (unfold reset; clear; writer_fields; repeat split).
  destruct Hk as (He & Hv & Hi & Hh & Hn & Hb).
  split; [repeat split; assumption|].
  intros Hc.
  destruct (flush_frame ISNULL_ALIGNMENT (reset w)) as (-> & -> & _ & _ & _ & _ & -> & _).
  assert (Hw1 : flushed_pixel (reset w) = newPixel (reset w)).
  { destruct (flushed_pixel_cases (reset w)) as [[_ E]|[Hle _]]; [exact E | lia]. }
  rewrite Hw1, newPixel_pixelpositions, newPixel_pixelstatistics, newPixel_isNullStream.
  destruct (reset_fields w) as (-> & -> & _ & _ & _ & _ & _ & -> & _).
  unfold closingBitmap. rewrite Hh, Hn, Hi, Hb.
  split; [reflexivity|]. split; [reflexivity|].
  destruct (hasNull w); [|reflexivity].
  rewrite view_putBytes by (unfold ByteBuffer.wf; cbn; lia).
  rewrite firstn_all. reflexivity.
Qed.

End Chunk.

(* ===================================================================== *)
(** ** These properties on the example run *)
(* ===================================================================== *)

Lemma configuration_fixed_witness :
  existsb isReset chunk_run = false
  /\ indexFlags (run 4 chunk_run (ColumnWriter_new (R:=BaseStats.t) 4 (option_LE 2)))
     = (ByteOrder_eqb (getByteOrder (option_LE 2)) PIXELS_LITTLE_ENDIAN, false, 4).
Proof.
  assert (Hr : existsb isReset chunk_run = false) by (vm_compute; reflexivity).
  split; [exact Hr|].
  exact (proj2 (configuration_fixed (R:=BaseStats.t) 4 (option_LE 2) chunk_run) Hr).
Defined.

Lemma pixel_positions_ordered_witness :
  forallb inChunk chunk_run = true
  /\ Z.of_nat (ByteBuffer.getWritePos
                 (outputStream (run 4 chunk_run
                                    (ColumnWriter_new (R:=BaseStats.t) 4 (option_LE 2)))))
     <= INT_MAX
  /\ StronglySorted Z.le
       (pixelpositions
          (columnChunkIndex (run 4 chunk_run
                                 (ColumnWriter_new (R:=BaseStats.t) 4 (option_LE 2))))).
Proof.
  assert (Hc : forallb inChunk chunk_run = true) by (vm_compute; reflexivity).
  assert (Hm : Z.of_nat (ByteBuffer.getWritePos
                           (outputStream
                              (run 4 chunk_run
                                   (ColumnWriter_new (R:=BaseStats.t) 4 (option_LE 2)))))
               <= INT_MAX)
    by (apply Z.leb_le; vm_compute; reflexivity).
  split; [exact Hc|]. split; [exact Hm|].
  exact (proj1 (pixel_positions_ordered (R:=BaseStats.t) 4 (option_LE 2) chunk_run Hc Hm)).
Defined.

Lemma fits_flushed_writer_pending :
  Z.of_nat (ByteBuffer.getWritePos (outputStream (flush 4 writer_pending))) + 4 <= INT_MAX.
Proof. apply Z.leb_le. vm_compute. reflexivity. Qed.

Lemma flush_twice_witness :
  ByteBuffer.wf (outputStream writer_pending)
  /\ 0 <= 4
  /\ Z.of_nat (ByteBuffer.getWritePos (outputStream (flush 4 writer_pending))) + 4
     <= INT_MAX
  /\ isnulloffset (columnChunkIndex (flush 4 writer_pending))
     + Z.of_nat (length (ByteBuffer.view (isNullStream (flush 4 writer_pending))))
     <= isnulloffset (columnChunkIndex (flush 4 (flush 4 writer_pending))).
Proof.
  assert (HA : 0 <= 4) by lia.
  split; [exact wf_writer_pending|]. split; [exact HA|].
  split; [exact fits_flushed_writer_pending|].
  exact (proj2 (proj2 (proj2 (proj2
           (flush_twice 4 writer_pending wf_writer_pending HA
                        fits_flushed_writer_pending))))).
Defined.

Lemma flush_isNullOffset_least_witness :
  ByteBuffer.wf (outputStream writer_pending)
  /\ 0 < 4
  /\ Z.of_nat (ByteBuffer.getWritePos (outputStream writer_pending)) + 4 <= INT_MAX
  /\ Z.of_nat (ByteBuffer.getWritePos (outputStream writer_pending)) <= 20
  /\ 20 mod 4 = 0
  /\ Z.of_nat (ByteBuffer.getWritePos (outputStream writer_pending))
     <= isnulloffset (columnChunkIndex (flush 4 writer_pending)) <= 20.
Proof.
  assert (HA : 0 < 4) by lia.
  assert (Hm : Z.of_nat (ByteBuffer.getWritePos (outputStream writer_pending)) <= 20)
    by (apply Z.leb_le; vm_compute; reflexivity).
  assert (Hd : 20 mod 4 = 0) by reflexivity.
  split; [exact wf_writer_pending|]. split; [exact HA|].
  split; [exact fits_writer_pending|]. split; [exact Hm|]. split; [exact Hd|].
  exact (flush_isNullOffset_least 4 writer_pending 20 wf_writer_pending HA
           fits_writer_pending Hm Hd).
Defined.

Lemma close_discards_content_witness :
  curPixelEleIndex (newPixel writer_two_rows) <= 0
  /\ fst (getColumnChunkContent (flush 4 (close (newPixel writer_two_rows)))) = []
  /\ isnulloffset (columnChunkIndex (flush 4 (close (newPixel writer_two_rows)))) = 0.
Proof.
  assert (Hc : curPixelEleIndex (newPixel writer_two_rows) <= 0)
    by (apply Z.leb_le; vm_compute; reflexivity).
  split; [exact Hc|].
  exact (proj2 (proj2 (proj2 (proj2 (proj2
           (close_discards_content 4 (newPixel writer_two_rows))))))
           Hc).
Defined.

Lemma buffers_ok_run_witness :
  0 <= getPixelsStride (option_LE 2)
  /\ buffers_ok (run 4 chunk_run (ColumnWriter_new (R:=BaseStats.t) 4 (option_LE 2))).
Proof.
  assert (Hs : 0 <= getPixelsStride (option_LE 2)) by (cbn; lia).
  split; [exact Hs|].
  exact (buffers_ok_run (R:=BaseStats.t) 4 (option_LE 2) chunk_run Hs).
Defined.

Lemma chunk_splits_at_isNullOffset_witness :
  0 <= 4
  /\ Z.of_nat (ByteBuffer.getWritePos
                 (outputStream
                    (flush 4 (run 4 rows_of_pixel0
                                  (ColumnWriter_new (R:=BaseStats.t) 4 (option_LE 2))))))
     + 4 <= INT_MAX
  /\ drop (Z.to_nat
             (isnulloffset
                (columnChunkIndex
                   (flush 4 (run 4 rows_of_pixel0
                                 (ColumnWriter_new (R:=BaseStats.t) 4 (option_LE 2)))))))
          (fst (getColumnChunkContent
                  (flush 4 (run 4 rows_of_pixel0
                                (ColumnWriter_new (R:=BaseStats.t) 4 (option_LE 2))))))
     = ByteBuffer.view
         (isNullStream
            (flush 4 (run 4 rows_of_pixel0
                          (ColumnWriter_new (R:=BaseStats.t) 4 (option_LE 2))))).
Proof.
  assert (HA : 0 <= 4) by lia.
  assert (Hm : Z.of_nat (ByteBuffer.getWritePos
                           (outputStream
                              (flush 4 (run 4 rows_of_pixel0
                                            (ColumnWriter_new (R:=BaseStats.t) 4
                                                              (option_LE 2))))))
               + 4 <= INT_MAX)
    by (apply Z.leb_le; vm_compute; reflexivity).
  split; [exact HA|]. split; [exact Hm|].
  exact (proj1 (proj2 (chunk_splits_at_isNullOffset (R:=BaseStats.t) 4 (option_LE 2)
                         rows_of_pixel0 HA Hm))).
Defined.

Lemma reset_keeps_pending_pixel_witness :
  0 < curPixelEleIndex writer_pending
  /\ pixelpositions (columnChunkIndex (flush 4 (reset writer_pending))) = [0].
Proof.
  assert (Hc : 0 < curPixelEleIndex writer_pending) by (vm_compute; reflexivity).
  split; [exact Hc|].
  exact (proj1 (proj2 (reset_keeps_pending_pixel 4 writer_pending) Hc)).
Defined.

(** A null row that [reset] finds pending stays in the pixel: [hasNull] is
    still set and the row still counted when the pixel is closed in the next
    chunk, and the chunk recorder of that chunk is marked. *)
Example pending_null_survives_reset :
  let w := run 4 pending_null_run (ColumnWriter_new (R:=BaseStats.t) 4 (option_LE 4)) in
  hasNull w = true
  /\ curPixelEleIndex w = 3
  /\ isNull w = [true; false; false; false]
  /\ closesNullPixel 4 [OpNewPixel] w = true
  /\ StatsRecorder.hasNull (columnChunkStatRecorder (newPixel w)) = true.
Proof. vm_compute. repeat split. Qed.
